(** * Credential store, visitor aggregator and statistics engine

    A shallow embedding of [server/storage.ts], of the table declarations of
    the shared schema and of the registration route, together with the
    properties the specification states about them.

    Conventions of the embedding.
    - A JavaScript string is a Rocq [string], read as the sequence of its
      UTF-8 bytes (what [Buffer.from(s)] yields).
    - A [Buffer] is a list of integers in the range 0..255.
    - A timestamp is an integer (milliseconds).
    - The relational store is a record of tables; each table is the list of
      its rows in insertion order, and an [update] changes rows in place.  A
      store operation takes the store and returns the new store together
      with what the method returns.
    - The order in which a [select] without [orderBy] yields the rows that
      match is the engine's choice.  Where several rows can match
      ([getVisitorByIp]) that order is a parameter of the query; a lookup by
      a primary or unique key matches one row at most.
    - The store has the declared schema: nullable columns, column defaults,
      serial keys, primary keys and unique constraints.  A statement the
      database rejects makes the method throw: a key that is already in the
      table, a string with the character U+0000 (PostgreSQL stores none), a
      string wider than its [varchar] column, a number outside the 32-bit
      range of an [integer] column.
    - The two sources of non-determinism of the code, the clock
      ([new Date()], [now()]) and [crypto.randomBytes], are explicit inputs
      of the operations that use them. *)

From Stdlib Require Import ZArith List Bool String Ascii Lia Permutation Sorted.
Import ListNotations.
Local Open Scope Z_scope.

(* ================================================================== *)
(** * Node's [crypto] primitives used by the credential store          *)
(* ================================================================== *)

(** [crypto.pbkdf2Sync] and [crypto.randomBytes] are library code.  They are
    modelled by the standards they implement: SHA-512 (FIPS 180-4), HMAC
    (RFC 2104) and PBKDF2 (RFC 8018). *)
Module Crypto.

Definition buffer := list Z.

Definition bytes_of_string (s : string) : buffer :=
  map (fun c => Z.of_N (N_of_ascii c)) (list_ascii_of_string s).

(** ** 64-bit words *)

Definition w64 (x : Z) : Z := Z.land x 0xffffffffffffffff.
Definition add64 (x y : Z) : Z := w64 (x + y).
Definition rotr (n x : Z) : Z :=
  w64 (Z.lor (Z.shiftr x n) (Z.shiftl x (64 - n))).
Definition not64 (x : Z) : Z := Z.lxor x 0xffffffffffffffff.

Definition Ch (x y z : Z) : Z := Z.lxor (Z.land x y) (Z.land (not64 x) z).
Definition Maj (x y z : Z) : Z :=
  Z.lxor (Z.lxor (Z.land x y) (Z.land x z)) (Z.land y z).
Definition Sigma0 (x : Z) : Z := Z.lxor (Z.lxor (rotr 28 x) (rotr 34 x)) (rotr 39 x).
Definition Sigma1 (x : Z) : Z := Z.lxor (Z.lxor (rotr 14 x) (rotr 18 x)) (rotr 41 x).
Definition sigma0 (x : Z) : Z := Z.lxor (Z.lxor (rotr 1 x) (rotr 8 x)) (Z.shiftr x 7).
Definition sigma1 (x : Z) : Z := Z.lxor (Z.lxor (rotr 19 x) (rotr 61 x)) (Z.shiftr x 6).

Definition K512 : list Z :=
  [ 0x428a2f98d728ae22; 0x7137449123ef65cd; 0xb5c0fbcfec4d3b2f; 0xe9b5dba58189dbbc;
    0x3956c25bf348b538; 0x59f111f1b605d019; 0x923f82a4af194f9b; 0xab1c5ed5da6d8118;
    0xd807aa98a3030242; 0x12835b0145706fbe; 0x243185be4ee4b28c; 0x550c7dc3d5ffb4e2;
    0x72be5d74f27b896f; 0x80deb1fe3b1696b1; 0x9bdc06a725c71235; 0xc19bf174cf692694;
    0xe49b69c19ef14ad2; 0xefbe4786384f25e3; 0x0fc19dc68b8cd5b5; 0x240ca1cc77ac9c65;
    0x2de92c6f592b0275; 0x4a7484aa6ea6e483; 0x5cb0a9dcbd41fbd4; 0x76f988da831153b5;
    0x983e5152ee66dfab; 0xa831c66d2db43210; 0xb00327c898fb213f; 0xbf597fc7beef0ee4;
    0xc6e00bf33da88fc2; 0xd5a79147930aa725; 0x06ca6351e003826f; 0x142929670a0e6e70;
    0x27b70a8546d22ffc; 0x2e1b21385c26c926; 0x4d2c6dfc5ac42aed; 0x53380d139d95b3df;
    0x650a73548baf63de; 0x766a0abb3c77b2a8; 0x81c2c92e47edaee6; 0x92722c851482353b;
    0xa2bfe8a14cf10364; 0xa81a664bbc423001; 0xc24b8b70d0f89791; 0xc76c51a30654be30;
    0xd192e819d6ef5218; 0xd69906245565a910; 0xf40e35855771202a; 0x106aa07032bbd1b8;
    0x19a4c116b8d2d0c8; 0x1e376c085141ab53; 0x2748774cdf8eeb99; 0x34b0bcb5e19b48a8;
    0x391c0cb3c5c95a63; 0x4ed8aa4ae3418acb; 0x5b9cca4f7763e373; 0x682e6ff3d6b2b8a3;
    0x748f82ee5defb2fc; 0x78a5636f43172f60; 0x84c87814a1f0ab72; 0x8cc702081a6439ec;
    0x90befffa23631e28; 0xa4506cebde82bde9; 0xbef9a3f7b2c67915; 0xc67178f2e372532b;
    0xca273eceea26619c; 0xd186b8c721c0c207; 0xeada7dd6cde0eb1e; 0xf57d4f7fee6ed178;
    0x06f067aa72176fba; 0x0a637dc5a2c898a6; 0x113f9804bef90dae; 0x1b710b35131c471b;
    0x28db77f523047d84; 0x32caab7b40c72493; 0x3c9ebe0a15c9bebc; 0x431d67c49c100d4c;
    0x4cc5d4becb3e42b6; 0x597f299cfc657e2a; 0x5fcb6fab3ad6faec; 0x6c44198c4a475817 ].

Definition H512 : list Z :=
  [ 0x6a09e667f3bcc908; 0xbb67ae8584caa73b; 0x3c6ef372fe94f82b; 0xa54ff53a5f1d36f1;
    0x510e527fade682d1; 0x9b05688c2b3e6c1f; 0x1f83d9abfb41bd6b; 0x5be0cd19137e2179 ].

(** ** Big-endian conversions *)

Fixpoint be_bytes (n : nat) (x : Z) : buffer :=
  match n with
  | O => []
  | S n' => Z.land (Z.shiftr x (8 * Z.of_nat n')) 0xff :: be_bytes n' x
  end.

Definition be_word (bs : buffer) : Z :=
  fold_left (fun acc b => Z.lor (Z.shiftl acc 8) b) bs 0.

Fixpoint chunks (size count : nat) (bs : buffer) : list buffer :=
  match count with
  | O => []
  | S c => firstn size bs :: chunks size c (skipn size bs)
  end.

(** ** SHA-512 *)

(** Padding: the byte 0x80, zero bytes up to 112 modulo 128, and the bit
    length of the message on 16 bytes. *)
Definition sha512_pad (msg : buffer) : buffer :=
  let len := Z.of_nat (List.length msg) in
  let zeros := Z.to_nat ((111 - len) mod 128) in
  msg ++ [0x80] ++ repeat 0 zeros ++ be_bytes 16 (8 * len).

(** The message schedule, kept as a window of the last sixteen words. *)
Fixpoint schedule (n : nat) (window : list Z) : list Z :=
  match n with
  | O => []
  | S n' =>
      let w := add64 (add64 (sigma1 (nth 14 window 0)) (nth 9 window 0))
                     (add64 (sigma0 (nth 1 window 0)) (nth 0 window 0)) in
      w :: schedule n' (tl window ++ [w])
  end.

Record regs := Regs { ra : Z; rb : Z; rc : Z; rd : Z; re : Z; rf : Z; rg : Z; rh : Z }.

Definition round (s : regs) (kw : Z * Z) : regs :=
  let '(k, w) := kw in
  let t1 := add64 (add64 (add64 (rh s) (Sigma1 (re s)))
                         (add64 (Ch (re s) (rf s) (rg s)) k)) w in
  let t2 := add64 (Sigma0 (ra s)) (Maj (ra s) (rb s) (rc s)) in
  Regs (add64 t1 t2) (ra s) (rb s) (rc s) (add64 (rd s) t1) (re s) (rf s) (rg s).

Definition regs_of (h : list Z) : regs :=
  Regs (nth 0 h 0) (nth 1 h 0) (nth 2 h 0) (nth 3 h 0)
       (nth 4 h 0) (nth 5 h 0) (nth 6 h 0) (nth 7 h 0).

Definition list_of (s : regs) : list Z :=
  [ra s; rb s; rc s; rd s; re s; rf s; rg s; rh s].

Definition compress (h : list Z) (block : buffer) : list Z :=
  let w16 := map be_word (chunks 8 16 block) in
  let w := w16 ++ schedule 64 w16 in
  let s := fold_left round (combine K512 w) (regs_of h) in
  map (fun p => add64 (fst p) (snd p)) (combine h (list_of s)).

Definition sha512 (msg : buffer) : buffer :=
  let padded := sha512_pad msg in
  let blocks := chunks 128 (List.length padded / 128) padded in
  flat_map (be_bytes 8) (fold_left compress blocks H512).

(** ** HMAC-SHA-512 *)

Definition block_size : nat := 128.

(** The key as HMAC uses it: hashed when longer than a block, then padded
    with zero bytes to the block size. *)
Definition hmac_key (key : buffer) : buffer :=
  let k := if (block_size <? List.length key)%nat then sha512 key else key in
  k ++ repeat 0 (block_size - List.length k).

Definition xor_with (pad : Z) (bs : buffer) : buffer := map (Z.lxor pad) bs.

Definition hmac_prepared (k0 msg : buffer) : buffer :=
  sha512 (xor_with 0x5c k0 ++ sha512 (xor_with 0x36 k0 ++ msg)).

Definition hmac_sha512 (key : buffer) : buffer -> buffer :=
  hmac_prepared (hmac_key key).

(** ** PBKDF2 *)

Definition xor_bytes (a b : buffer) : buffer :=
  map (fun p => Z.lxor (fst p) (snd p)) (combine a b).

(** [iterate prf c u acc]: the remaining [c] applications of the
    pseudo-random function, accumulating the exclusive or. *)
Fixpoint iterate (prf : buffer -> buffer) (c : nat) (u acc : buffer) : buffer :=
  match c with
  | O => acc
  | S c' => let u' := prf u in iterate prf c' u' (xor_bytes acc u')
  end.

Definition pbkdf2_block (prf : buffer -> buffer) (salt : buffer)
    (c : nat) (i : Z) : buffer :=
  let u1 := prf (salt ++ be_bytes 4 i) in
  iterate prf (c - 1) u1 u1.

Definition pbkdf2 (prf : buffer -> buffer) (hLen : nat) (salt : buffer)
    (c dkLen : nat) : buffer :=
  let l := ((dkLen + hLen - 1) / hLen)%nat in
  firstn dkLen
    (flat_map (fun i => pbkdf2_block prf salt c (Z.of_nat i)) (seq 1 l)).

(** [crypto.pbkdf2Sync(password, salt, iterations, keylen, 'sha512')] with
    string arguments. *)
Definition pbkdf2Sync (password salt : string) (iterations keylen : nat) : buffer :=
  pbkdf2 (hmac_sha512 (bytes_of_string password)) 64
         (bytes_of_string salt) iterations keylen.

(** ** [Buffer.toString('hex')] *)

Definition hex_digit (d : Z) : ascii :=
  if d <? 10 then ascii_of_N (Z.to_N (48 + d)) else ascii_of_N (Z.to_N (87 + d)).

Fixpoint toHex (bs : buffer) : string :=
  match bs with
  | [] => EmptyString
  | b :: bs' =>
      String (hex_digit (Z.shiftr b 4)) (String (hex_digit (Z.land b 15)) (toHex bs'))
  end.

(** ** [crypto.randomBytes(n)]: the next [n] bytes of the entropy source *)

Definition entropy := nat -> Z.

Definition randomBytes (src : entropy) (n : nat) : buffer :=
  map (fun i => Z.land (src i) 0xff) (seq 0 n).

End Crypto.

(* ================================================================== *)
(** * The shared schema                                                *)
(* ================================================================== *)

(** [users]: every column is [notNull] except [lastLogin]. *)
Module Users.
Record row := Row {
  id : Z;                    (* serial, primary key *)
  username : string;         (* unique *)
  email : string;            (* unique *)
  password : string;
  salt : string;
  role : string;             (* default "user" *)
  isActive : bool;           (* default true *)
  createdAt : Z;             (* defaultNow *)
  lastLogin : option Z
}.
End Users.

(** [visitors]: only [id], [lastVisit] and [firstVisit] are [notNull]; a
    nullable column is an [option], [None] standing for SQL NULL. *)
Module Visitors.
Record row := Row {
  id : Z;                    (* serial, primary key *)
  ipAddress : option string;
  userAgent : option string;
  referrer : option string;
  language : option string;
  country : option string;
  city : option string;
  device : option string;
  browser : option string;
  os : option string;
  isUnique : option bool;    (* default true *)
  visitCount : option Z;     (* default 1 *)
  lastVisit : Z;             (* defaultNow *)
  firstVisit : Z             (* defaultNow *)
}.
End Visitors.

Definition User := Users.row.
Definition Visitor := Visitors.row.

(** A property of an object whose type is [string | null | undefined]:
    [None] when the key is missing or [undefined], [Some None] when it is
    [null], [Some (Some s)] when it holds the string [s]. *)
Definition optional := option (option string).

(** [InsertVisitor]: the nine columns picked by [insertVisitorSchema], all of
    them optional ([.partial()]); [Partial<InsertVisitor>] is the same type.
    TypeScript's object types are open: an object that carries further keys
    has the type too, and [createVisitor] and [updateVisitor] hand every key
    of the object to the query builder, which uses those that name a column
    of the table.  So the record has a key for each of the five other
    columns as well, holding a value of the column's type when present;
    [declared] below says that an object carries none of them. *)
Module InsertVisitor.
Record t := Make {
  ipAddress : optional;
  userAgent : optional;
  referrer : optional;
  language : optional;
  country : optional;
  city : optional;
  device : optional;
  browser : optional;
  os : optional;
  (* keys outside the declared type *)
  id : option Z;
  isUnique : option (option bool);
  visitCount : option (option Z);
  lastVisit : option Z;
  firstVisit : option Z
}.
End InsertVisitor.
Definition InsertVisitor := InsertVisitor.t.

(** [LoginUser] *)
Record LoginUser := { login_username : string; login_password : string }.

(** The argument of [createUser]. *)
Record UserData := {
  data_username : string;
  data_email : string;
  data_password : string;
  data_role : option string
}.

(* ================================================================== *)
(** * The store                                                        *)
(* ================================================================== *)

Record Store := {
  users : list User;
  users_id_seq : Z;          (* next value of the serial of [users.id] *)
  visitors : list Visitor;
  visitors_id_seq : Z        (* next value of the serial of [visitors.id] *)
}.

Definition emptyStore : Store :=
  {| users := []; users_id_seq := 1; visitors := []; visitors_id_seq := 1 |}.

(** What a call reads from its environment. *)
Record Env := {
  now : Z;                   (* the clock, for [new Date()] and [now()] *)
  rand : Crypto.entropy      (* the bytes [crypto.randomBytes] will return *)
}.

(** A statement the database rejects makes the method throw. *)
Inductive DbError :=
| UniqueViolation (constraint : string)  (* a unique or primary key *)
| InvalidByteSequence                    (* a string with U+0000 *)
| ValueTooLong                           (* a string wider than its column *)
| IntegerOutOfRange.                     (* a number outside 32 bits *)

Inductive outcome (A : Type) :=
| Returned (a : A)
| Thrown (e : DbError).
Arguments Returned {A} a.
Arguments Thrown {A} e.

Definition bind {A B : Type} (m : outcome A) (f : A -> outcome B) : outcome B :=
  match m with
  | Returned a => f a
  | Thrown e => Thrown e
  end.

Notation "x <- m ;; k" := (bind m (fun x => k))
  (at level 61, m at next level, right associativity).

(* ================================================================== *)
(** * What the database accepts                                        *)
(* ================================================================== *)

(** ** Strings *)

(** PostgreSQL rejects a string that contains the character U+0000,
    whether it is a value to store or a value to compare with. *)
Fixpoint has_nul (s : string) : bool :=
  match s with
  | EmptyString => false
  | String c s' => Ascii.eqb c Ascii.zero || has_nul s'
  end.

(** A [varchar(n)] column counts characters.  In UTF-8 a character is one
    byte that is not a continuation byte (10xxxxxx), followed by
    continuation bytes. *)
Definition continuation (c : ascii) : bool :=
  let b := N_of_ascii c in
  (0x80 <=? b)%N && (b <? 0xC0)%N.


(** The first [n] characters of a string, and what follows them. *)
Fixpoint split_chars (n : nat) (s : string) {struct s} : string * string :=
  match s with
  | EmptyString => (EmptyString, EmptyString)
  | String c s' =>
      if continuation c
      then let (kept, excess) := split_chars n s' in (String c kept, excess)
      else match n with
           | O => (EmptyString, s)
           | S n' =>
               let (kept, excess) := split_chars n' s' in (String c kept, excess)
           end
  end.

Fixpoint all_spaces (s : string) : bool :=
  match s with
  | EmptyString => true
  | String c s' => Ascii.eqb c " " && all_spaces s'
  end.

(** A string assigned to a [varchar(width)] column: stored as it is when it
    has at most [width] characters; cut to [width] characters when all the
    characters in excess are spaces; rejected otherwise. *)
Definition varchar (width : nat) (s : string) : outcome string :=
  let (kept, excess) := split_chars width s in
  match excess with
  | EmptyString => Returned s
  | _ => if all_spaces excess then Returned kept else Thrown ValueTooLong
  end.

(** ** Numbers *)

(** The range of an [integer] column, and of a number compared with one. *)
Definition int4_min : Z := -2147483648.
Definition int4_max : Z := 2147483647.

Definition in_int4 (n : Z) : bool := (int4_min <=? n) && (n <=? int4_max).

(* ================================================================== *)
(** * [server/storage.ts]                                              *)
(* ================================================================== *)

(** ** Helper functions for password hashing *)

Definition generateSalt (src : Crypto.entropy) : string :=
  Crypto.toHex (Crypto.randomBytes src 16).

Definition hashPassword (password salt : string) : string :=
  Crypto.toHex (Crypto.pbkdf2Sync password salt 1000 64).

Definition verifyPassword (password salt storedHash : string) : bool :=
  let hash := hashPassword password salt in
  String.eqb hash storedHash.

(** The key derivation runs a thousand rounds: proofs reason about it
    through its equations and leave it folded. *)
Arguments hashPassword : simpl never.
Arguments verifyPassword : simpl never.
Arguments generateSalt : simpl never.

(** ** User and authentication methods *)

Definition getUser (st : Store) (id : Z) : option User :=
  find (fun u => Users.id u =? id) (users st).

(** A lookup by a string throws when the string contains U+0000: the
    database rejects the parameter of the query. *)
Definition getUserByUsername (st : Store) (username : string)
  : outcome (option User) :=
  if has_nul username then Thrown InvalidByteSequence
  else Returned (find (fun u => String.eqb (Users.username u) username) (users st)).

Definition getUserByEmail (st : Store) (email : string) : outcome (option User) :=
  if has_nul email then Thrown InvalidByteSequence
  else Returned (find (fun u => String.eqb (Users.email u) email) (users st)).

(** [x || d] on an optional string: the empty string is falsy. *)
Definition or_default (x : option string) (d : string) : string :=
  match x with
  | Some (String c s) => String c s
  | _ => d
  end.

(** The strings of the new row are parameters of the insert; the database
    rejects the statement when one of them contains U+0000, before it runs.
    The hash and the salt are strings of hexadecimal digits, so that only
    the username, the email and the role can be rejected.  An insert that
    runs draws the next id from the serial before the unique constraints
    are checked: an insert they reject still consumes an id. *)
Definition createUser (env : Env) (userData : UserData) (st : Store)
  : outcome User * Store :=
  let salt := generateSalt (rand env) in
  let hashedPassword := hashPassword (data_password userData) salt in
  let role := or_default (data_role userData) "user" in
  let user := Users.Row (users_id_seq st)
                (data_username userData) (data_email userData)
                hashedPassword salt role
                true (now env) None in
  let st1 := {| users := users st; users_id_seq := users_id_seq st + 1;
                visitors := visitors st; visitors_id_seq := visitors_id_seq st |} in
  if has_nul (data_username userData) || has_nul (data_email userData)
     || has_nul role
  then (Thrown InvalidByteSequence, st)
  else if existsb (fun u => String.eqb (Users.username u) (data_username userData)) (users st)
  then (Thrown (UniqueViolation "users_username_unique"), st1)
  else if existsb (fun u => String.eqb (Users.email u) (data_email userData)) (users st)
  then (Thrown (UniqueViolation "users_email_unique"), st1)
  else (Returned user,
        {| users := users st ++ [user]; users_id_seq := users_id_seq st + 1;
           visitors := visitors st; visitors_id_seq := visitors_id_seq st |}).

Definition verifyUser (st : Store) (loginData : LoginUser) : outcome (option User) :=
  found <- getUserByUsername st (login_username loginData) ;;
  match found with
  | None => Returned None
  | Some user =>
      if negb (Users.isActive user) then Returned None
      else
        let isPasswordValid :=
          verifyPassword (login_password loginData)
                         (Users.salt user) (Users.password user) in
        if isPasswordValid then Returned (Some user) else Returned None
  end.

Definition set_lastLogin (t : Z) (u : User) : User :=
  Users.Row (Users.id u) (Users.username u) (Users.email u) (Users.password u)
            (Users.salt u) (Users.role u) (Users.isActive u) (Users.createdAt u)
            (Some t).

Definition set_password_salt (password salt : string) (u : User) : User :=
  Users.Row (Users.id u) (Users.username u) (Users.email u) password salt
            (Users.role u) (Users.isActive u) (Users.createdAt u)
            (Users.lastLogin u).

(** [update(users).set(...).where(eq(users.id, userId))] *)
Definition update_users (userId : Z) (f : User -> User) (st : Store) : Store :=
  {| users := map (fun u => if Users.id u =? userId then f u else u) (users st);
     users_id_seq := users_id_seq st;
     visitors := visitors st; visitors_id_seq := visitors_id_seq st |}.

Definition updateLastLogin (env : Env) (userId : Z) (st : Store) : Store :=
  update_users userId (set_lastLogin (now env)) st.

(** The method catches what its statements throw, logs it and returns
    false.  The update of a user that was found rejects nothing; a lookup
    the database rejects (an id outside the integer range) returns false
    through the [catch], as the lookup that finds no row does. *)
Definition updateUserPassword (env : Env) (userId : Z) (newPassword : string)
    (st : Store) : bool * Store :=
  match getUser st userId with
  | None => (false, st)
  | Some _ =>
      let salt := generateSalt (rand env) in
      let hashedPassword := hashPassword newPassword salt in
      (true, update_users userId (set_password_salt hashedPassword salt) st)
  end.

(** ** Visitor methods *)

(** A column of an insert: a missing key takes the column default, which is
    NULL for the nine descriptive columns. *)
Definition inserted (x : optional) : option string :=
  match x with
  | None => None
  | Some v => v
  end.

(** A column of an update's [set]: a missing key leaves the column as it
    is. *)
Definition assigned (x : optional) (old : option string) : option string :=
  match x with
  | None => old
  | Some v => v
  end.

(** The same for the other columns: the value of the key when the object has
    the key, the default (insert) or the old value (update) when not. *)
Definition key_or {A : Type} (x : option A) (otherwise : A) : A :=
  match x with
  | Some a => a
  | None => otherwise
  end.

(** Does a string of the object contain U+0000? *)
Definition key_has_nul (x : optional) : bool :=
  match x with
  | Some (Some s) => has_nul s
  | _ => false
  end.

Definition strings_have_nul (d : InsertVisitor) : bool :=
  key_has_nul (InsertVisitor.ipAddress d) || key_has_nul (InsertVisitor.userAgent d)
  || key_has_nul (InsertVisitor.referrer d) || key_has_nul (InsertVisitor.language d)
  || key_has_nul (InsertVisitor.country d) || key_has_nul (InsertVisitor.city d)
  || key_has_nul (InsertVisitor.device d) || key_has_nul (InsertVisitor.browser d)
  || key_has_nul (InsertVisitor.os d).

(** A key assigned to a [varchar(width)] column. *)
Definition varchar_key (width : nat) (x : optional) : outcome optional :=
  match x with
  | Some (Some s) => s' <- varchar width s ;; Returned (Some (Some s'))
  | _ => Returned x
  end.

(** The object as the columns of [visitors] take it: [ipAddress], [language],
    [device], [browser] and [os] are [varchar(50)], [country] and [city] are
    [varchar(100)], [userAgent] and [referrer] are [text]. *)
Definition as_columns (d : InsertVisitor) : outcome InsertVisitor :=
  ipAddress <- varchar_key 50 (InsertVisitor.ipAddress d) ;;
  language <- varchar_key 50 (InsertVisitor.language d) ;;
  country <- varchar_key 100 (InsertVisitor.country d) ;;
  city <- varchar_key 100 (InsertVisitor.city d) ;;
  device <- varchar_key 50 (InsertVisitor.device d) ;;
  browser <- varchar_key 50 (InsertVisitor.browser d) ;;
  os <- varchar_key 50 (InsertVisitor.os d) ;;
  Returned (InsertVisitor.Make ipAddress
              (InsertVisitor.userAgent d) (InsertVisitor.referrer d)
              language country city device browser os
              (InsertVisitor.id d) (InsertVisitor.isUnique d)
              (InsertVisitor.visitCount d)
              (InsertVisitor.lastVisit d) (InsertVisitor.firstVisit d)).

Definition key_in_int4 (x : option Z) : bool :=
  match x with
  | Some n => in_int4 n
  | None => true
  end.

Definition null_or_in_int4 (x : option (option Z)) : bool :=
  match x with
  | Some (Some n) => in_int4 n
  | _ => true
  end.

Definition set_visitors (rows : list Visitor) (next : Z) (st : Store) : Store :=
  {| users := users st; users_id_seq := users_id_seq st;
     visitors := rows; visitors_id_seq := next |}.

(** [insert(visitors).values(insertVisitor).returning()].  The database
    rejects the parameters it cannot read (a string with U+0000, a number
    outside the integer range) and the strings wider than their column
    before the statement runs.  The statement draws the id from the serial
    when the object has no [id], and is rejected when the id is in the
    table already; the serial keeps what it has handed out. *)
Definition createVisitor (env : Env) (insertVisitor : InsertVisitor) (st : Store)
  : outcome Visitor * Store :=
  if strings_have_nul insertVisitor then (Thrown InvalidByteSequence, st)
  else if negb (key_in_int4 (InsertVisitor.id insertVisitor)
                && null_or_in_int4 (InsertVisitor.visitCount insertVisitor))
  then (Thrown IntegerOutOfRange, st)
  else
    match as_columns insertVisitor with
    | Thrown e => (Thrown e, st)
    | Returned values =>
        let id := key_or (InsertVisitor.id values) (visitors_id_seq st) in
        let next :=
          match InsertVisitor.id values with
          | Some _ => visitors_id_seq st
          | None => visitors_id_seq st + 1
          end in
        let visitor :=
          Visitors.Row id
            (inserted (InsertVisitor.ipAddress values))
            (inserted (InsertVisitor.userAgent values))
            (inserted (InsertVisitor.referrer values))
            (inserted (InsertVisitor.language values))
            (inserted (InsertVisitor.country values))
            (inserted (InsertVisitor.city values))
            (inserted (InsertVisitor.device values))
            (inserted (InsertVisitor.browser values))
            (inserted (InsertVisitor.os values))
            (key_or (InsertVisitor.isUnique values) (Some true))
            (key_or (InsertVisitor.visitCount values) (Some 1))
            (key_or (InsertVisitor.lastVisit values) (now env))
            (key_or (InsertVisitor.firstVisit values) (now env)) in
        if existsb (fun v => Visitors.id v =? id) (visitors st)
        then (Thrown (UniqueViolation "visitors_pkey"), set_visitors (visitors st) next st)
        else (Returned visitor, set_visitors (visitors st ++ [visitor]) next st)
    end.

Definition getVisitor (st : Store) (id : Z) : option Visitor :=
  find (fun v => Visitors.id v =? id) (visitors st).

(** [eq(visitors.ipAddress, ipAddress)] is not true on a NULL column. *)
Definition ip_is (ipAddress : string) (v : Visitor) : bool :=
  match Visitors.ipAddress v with
  | Some ip => String.eqb ip ipAddress
  | None => false
  end.

Section Scan.

(** The order in which the engine yields the rows of [visitors] to a
    [select] without [orderBy]. *)
Variable scan : list Visitor -> list Visitor.

(** The column is not unique: the method returns the first of the rows that
    match, in the order the engine yields them. *)
Definition getVisitorByIp (st : Store) (ipAddress : string)
  : outcome (option Visitor) :=
  if has_nul ipAddress then Thrown InvalidByteSequence
  else Returned (hd_error (filter (ip_is ipAddress) (scan (visitors st)))).

End Scan.

(** The [set] clause of [updateVisitor] applied to one row:
    [{...visitorData, lastVisit: new Date(), visitCount: visitCount + 1}].
    Every key of the object that names a column is assigned; the two keys
    written after the spread replace what the object holds for them.  In
    SQL, NULL + 1 is NULL. *)
Definition set_visitor (t : Z) (visitorData : InsertVisitor) (v : Visitor) : Visitor :=
  Visitors.Row
    (key_or (InsertVisitor.id visitorData) (Visitors.id v))
    (assigned (InsertVisitor.ipAddress visitorData) (Visitors.ipAddress v))
    (assigned (InsertVisitor.userAgent visitorData) (Visitors.userAgent v))
    (assigned (InsertVisitor.referrer visitorData) (Visitors.referrer v))
    (assigned (InsertVisitor.language visitorData) (Visitors.language v))
    (assigned (InsertVisitor.country visitorData) (Visitors.country v))
    (assigned (InsertVisitor.city visitorData) (Visitors.city v))
    (assigned (InsertVisitor.device visitorData) (Visitors.device v))
    (assigned (InsertVisitor.browser visitorData) (Visitors.browser v))
    (assigned (InsertVisitor.os visitorData) (Visitors.os v))
    (key_or (InsertVisitor.isUnique visitorData) (Visitors.isUnique v))
    (option_map (fun n => n + 1) (Visitors.visitCount v))
    t
    (key_or (InsertVisitor.firstVisit visitorData) (Visitors.firstVisit v)).

(** [visitCount + 1] leaves the integer range. *)
Definition count_overflows (v : Visitor) : bool :=
  match Visitors.visitCount v with
  | Some n => int4_max <? n + 1
  | None => false
  end.

(** The new id of the rows that match is the id of another row. *)
Definition id_taken (id : Z) (visitorData : InsertVisitor) (rows : list Visitor)
  : bool :=
  match InsertVisitor.id visitorData with
  | Some new =>
      negb (new =? id)
      && existsb (fun v => Visitors.id v =? id) rows
      && existsb (fun v => Visitors.id v =? new) rows
  | None => false
  end.

(** [update(visitors).set(...).where(eq(visitors.id, id)).returning()].  As
    for the insert, the database rejects parameters it cannot read and
    strings wider than their column before the statement runs; the
    statement is rejected when a count leaves the integer range or a row
    takes the id of another.  The method returns the first of the rows
    updated: [undefined] ([None]) when no row has the id. *)
Definition updateVisitor (env : Env) (id : Z) (visitorData : InsertVisitor)
    (st : Store) : outcome (option Visitor) * Store :=
  if strings_have_nul visitorData then (Thrown InvalidByteSequence, st)
  else if negb (in_int4 id && key_in_int4 (InsertVisitor.id visitorData))
  then (Thrown IntegerOutOfRange, st)
  else
    match as_columns visitorData with
    | Thrown e => (Thrown e, st)
    | Returned values =>
        let matching := filter (fun v => Visitors.id v =? id) (visitors st) in
        if existsb count_overflows matching then (Thrown IntegerOutOfRange, st)
        else if id_taken id values (visitors st)
        then (Thrown (UniqueViolation "visitors_pkey"), st)
        else
          let updated :=
            map (fun v => if Visitors.id v =? id
                          then set_visitor (now env) values v else v)
                (visitors st) in
          (Returned (hd_error (map (set_visitor (now env) values) matching)),
           set_visitors updated (visitors_id_seq st) st)
    end.

(** ** Visitor statistics *)

(** One row of a group-by query: the group key and [count( * )]. *)
Definition group := (option string * Z)%type.

(** [select count( * ) from visitors where p]: one row, holding the count. *)
Definition select_count (p : Visitor -> bool) (rows : list Visitor) : list Z :=
  [Z.of_nat (List.length (filter p rows))].

(** [const [r] = result; r?.count || 0] *)
Definition count_or_zero (result : list Z) : Z :=
  match result with
  | [] => 0
  | c :: _ => if c =? 0 then 0 else c
  end.

Definition is_true (b : option bool) : bool :=
  match b with
  | Some true => true
  | _ => false
  end.

Definition is_not_null {A} (x : option A) : bool :=
  match x with
  | Some _ => true
  | None => false
  end.

Definition same_key (a b : option string) : bool :=
  match a, b with
  | Some x, Some y => String.eqb x y
  | None, None => true
  | _, _ => false
  end.

(** Adds one row to the group of its key. *)
Fixpoint bump (k : option string) (groups : list group) : list group :=
  match groups with
  | [] => [(k, 1)]
  | (k', c) :: rest =>
      if same_key k k' then (k', c + 1) :: rest else (k', c) :: bump k rest
  end.

(** [select key, count( * ) from rows group by key] *)
Definition group_by (key : Visitor -> option string) (rows : list Visitor)
  : list group :=
  fold_left (fun groups v => bump (key v) groups) rows [].

Definition limit {A} (n : nat) (l : list A) : list A := firstn n l.

(** Descending order of the counts. *)
Definition count_ge (a b : group) : Prop := snd b <= snd a.

Fixpoint insert_desc (g : group) (l : list group) : list group :=
  match l with
  | [] => [g]
  | h :: t => if snd h <? snd g then g :: h :: t else h :: insert_desc g t
  end.

(** One ordering the engine may produce: a stable insertion sort. *)
Definition sort_desc (l : list group) : list group :=
  fold_right insert_desc [] l.

Record VisitorStats := {
  totalVisitors : Z;
  uniqueVisitors : Z;
  visitorsByCountry : list (string * Z);
  visitorsByDevice : list (string * Z);
  visitorsByBrowser : list (string * Z);
  visitorsByOs : list (string * Z)
}.

Section Statistics.

(** [orderBy(desc(count( * )))]: the engine orders the groups by descending
    count; the order among groups of equal count is the engine's choice, so
    the ordering is a parameter of the queries. *)
Variable orderByCountDesc : list group -> list group.

(** The group-by query of one column:
    [select({key, count}).from(visitors).where(key IS NOT NULL)
       .groupBy(key).orderBy(desc(count)).limit(10)] *)
Definition breakdownRaw (key : Visitor -> option string) (st : Store) : list group :=
  limit 10
    (orderByCountDesc
       (group_by key (filter (fun v => is_not_null (key v)) (visitors st)))).

(** [raw.map(item => ({key: item.key || "Unknown", count: item.count}))] *)
Definition label (item : group) : string * Z :=
  (or_default (fst item) "Unknown", snd item).

(** The two time-window counters of the method ([todayVisitors],
    [lastWeekVisitors]) depend on the calendar of the server; no property
    below concerns them and the record leaves them out. *)
Definition getVisitorStats (st : Store) : VisitorStats :=
  let totalVisitors := count_or_zero (select_count (fun _ => true) (visitors st)) in
  let uniqueVisitors :=
    count_or_zero (select_count (fun v => is_true (Visitors.isUnique v)) (visitors st)) in
  let visitorsByCountry := map label (breakdownRaw Visitors.country st) in
  let visitorsByDevice := map label (breakdownRaw Visitors.device st) in
  let visitorsByBrowser := map label (breakdownRaw Visitors.browser st) in
  let visitorsByOs := map label (breakdownRaw Visitors.os st) in
  {| totalVisitors := totalVisitors;
     uniqueVisitors := uniqueVisitors;
     visitorsByCountry := visitorsByCountry;
     visitorsByDevice := visitorsByDevice;
     visitorsByBrowser := visitorsByBrowser;
     visitorsByOs := visitorsByOs |}.

End Statistics.

(* ================================================================== *)
(** * The visitor aggregator                                           *)
(* ================================================================== *)

(** Modelled from the spec: [RecordVisit], the caller of [getVisitorByIp],
    [createVisitor] and [updateVisitor], is not among the sources.  The
    specification has it look the observation's IP address up, insert a new
    visitor when none is found (an observation without IP address has no key
    to look up and is always inserted), and update the row found
    otherwise.  What a method throws, it throws. *)
Definition recordVisit (scan : list Visitor -> list Visitor) (env : Env)
    (observation : InsertVisitor) (st : Store)
  : outcome (option Visitor) * Store :=
  let create :=
    match createVisitor env observation st with
    | (Returned v, st') => (Returned (Some v), st')
    | (Thrown e, st') => (Thrown e, st')
    end in
  match InsertVisitor.ipAddress observation with
  | Some (Some ip) =>
      match getVisitorByIp scan st ip with
      | Thrown e => (Thrown e, st)
      | Returned (Some existing) =>
          updateVisitor env (Visitors.id existing) observation st
      | Returned None => create
      end
  | _ => create
  end.

(* ================================================================== *)
(** * The registration route                                           *)
(* ================================================================== *)

(** The three properties the handler reads from [req.body], strings as the
    registration form sends them; [None] is a missing property. *)
Record RegisterBody := {
  body_username : option string;
  body_email : option string;
  body_password : option string
}.

(** [newUser] without [password] and [salt]. *)
Record PublicUser := {
  pub_id : Z;
  pub_username : string;
  pub_email : string;
  pub_role : string;
  pub_isActive : bool;
  pub_createdAt : Z;
  pub_lastLogin : option Z
}.

Definition withoutSensitiveData (u : User) : PublicUser :=
  {| pub_id := Users.id u; pub_username := Users.username u;
     pub_email := Users.email u; pub_role := Users.role u;
     pub_isActive := Users.isActive u; pub_createdAt := Users.createdAt u;
     pub_lastLogin := Users.lastLogin u |}.

(** [res.status(status).json({success, message, user})] *)
Record Response := {
  status : Z;
  success : bool;
  message : string;
  user : option PublicUser
}.

Definition validationResponse : Response :=
  {| status := 400; success := false;
     message := "Username, email, dan password harus diisi"; user := None |}.

Definition usernameConflictResponse : Response :=
  {| status := 400; success := false;
     message := "Username sudah digunakan"; user := None |}.

Definition emailConflictResponse : Response :=
  {| status := 400; success := false;
     message := "Email sudah digunakan"; user := None |}.

Definition registerFailureResponse : Response :=
  {| status := 500; success := false;
     message := "Gagal melakukan registrasi"; user := None |}.

Definition registeredResponse (u : User) : Response :=
  {| status := 201; success := true;
     message := "Registrasi berhasil"; user := Some (withoutSensitiveData u) |}.

(** [app.post("/api/auth/register", ...)].  A property that is missing or
    the empty string is falsy.  Whatever a storage method throws is caught
    and answered with status 500. *)
Definition register (env : Env) (body : RegisterBody) (st : Store)
  : Response * Store :=
  match body_username body, body_email body, body_password body with
  | Some (String c1 u1), Some (String c2 e2), Some (String c3 p3) =>
      let username := String c1 u1 in
      let email := String c2 e2 in
      let password := String c3 p3 in
      match getUserByUsername st username with
      | Thrown _ => (registerFailureResponse, st)
      | Returned (Some _) => (usernameConflictResponse, st)
      | Returned None =>
          match getUserByEmail st email with
          | Thrown _ => (registerFailureResponse, st)
          | Returned (Some _) => (emailConflictResponse, st)
          | Returned None =>
              match createUser env {| data_username := username;
                                      data_email := email;
                                      data_password := password;
                                      data_role := None |} st with
              | (Returned newUser, st') => (registeredResponse newUser, st')
              | (Thrown _, st') => (registerFailureResponse, st')
              end
          end
      end
  | _, _, _ => (validationResponse, st)
  end.

(** A property of the request body that is present and not the empty
    string. *)
Definition provided (x : option string) : Prop :=
  exists c s, x = Some (String c s).



Definition email_taken (st : Store) (x : option string) : Prop :=
  exists u, In u (users st) /\ x = Some (Users.email u).

(* ================================================================== *)
(** * Histories of calls                                               *)
(* ================================================================== *)

(** The methods of the storage interface that write to the store. *)
Inductive Call :=
| CreateUser (env : Env) (userData : UserData)
| UpdateLastLogin (env : Env) (userId : Z)
| UpdateUserPassword (env : Env) (userId : Z) (newPassword : string)
| CreateVisitor (env : Env) (insertVisitor : InsertVisitor)
| UpdateVisitor (env : Env) (id : Z) (visitorData : InsertVisitor).

Definition exec (st : Store) (c : Call) : Store :=
  match c with
  | CreateUser env userData => snd (createUser env userData st)
  | UpdateLastLogin env userId => updateLastLogin env userId st
  | UpdateUserPassword env userId newPassword =>
      snd (updateUserPassword env userId newPassword st)
  | CreateVisitor env insertVisitor => snd (createVisitor env insertVisitor st)
  | UpdateVisitor env id visitorData => snd (updateVisitor env id visitorData st)
  end.

Definition run (calls : list Call) (st : Store) : Store :=
  fold_left exec calls st.

(** The stores the methods can produce, starting from empty tables. *)
Definition reachable (st : Store) : Prop :=
  exists calls, st = run calls emptyStore.

(** An object that carries the nine declared keys only. *)
Definition declared (d : InsertVisitor) : bool :=
  match InsertVisitor.id d, InsertVisitor.isUnique d, InsertVisitor.visitCount d,
        InsertVisitor.lastVisit d, InsertVisitor.firstVisit d with
  | None, None, None, None, None => true
  | _, _, _, _, _ => false
  end.

(** The calls that hand the visitor methods such objects only, and the
    stores they can produce. *)
Definition declared_call (c : Call) : bool :=
  match c with
  | CreateVisitor _ insertVisitor => declared insertVisitor
  | UpdateVisitor _ _ visitorData => declared visitorData
  | _ => true
  end.

Definition reachable_declared (st : Store) : Prop :=
  exists calls, forallb declared_call calls = true /\ st = run calls emptyStore.



(* ================================================================== *)
(** * The message table                                                *)
(* ================================================================== *)

(** [messages]: every column is [notNull]. *)
Module Messages.
Record row := Row {
  id : Z;                    (* serial, primary key *)
  name : string;
  email : string;
  subject : string;
  message : string;
  createdAt : Z              (* defaultNow *)
}.
End Messages.

Definition Message := Messages.row.

(** [InsertMessage]: the four columns picked by [insertMessageSchema]. *)
Record InsertMessage := {
  insert_name : string;
  insert_email : string;
  insert_subject : string;
  insert_message : string
}.

(** The third table of the database.  No method reads or writes it together
    with the other two, so it is kept apart from [Store]. *)
Record Inbox := {
  messages : list Message;
  messages_id_seq : Z        (* next value of the serial of [messages.id] *)
}.

Definition emptyInbox : Inbox := {| messages := []; messages_id_seq := 1 |}.

(** The four strings are parameters of the insert: the database rejects it,
    before it runs, when one of them contains U+0000. *)
Definition createMessage (env : Env) (insertMessage : InsertMessage) (box : Inbox)
  : outcome Message * Inbox :=
  let message :=
    Messages.Row (messages_id_seq box)
      (insert_name insertMessage) (insert_email insertMessage)
      (insert_subject insertMessage) (insert_message insertMessage)
      (now env) in
  if has_nul (insert_name insertMessage) || has_nul (insert_email insertMessage)
     || has_nul (insert_subject insertMessage)
     || has_nul (insert_message insertMessage)
  then (Thrown InvalidByteSequence, box)
  else (Returned message,
        {| messages := messages box ++ [message];
           messages_id_seq := messages_id_seq box + 1 |}).

Definition getMessages (box : Inbox) : list Message := messages box.

Definition getMessage (box : Inbox) (id : Z) : option Message :=
  find (fun m => Messages.id m =? id) (messages box).

(** The inboxes [createMessage] can produce, starting from an empty table. *)
Definition deliver (box : Inbox) (call : Env * InsertMessage) : Inbox :=
  snd (createMessage (fst call) (snd call) box).

Definition reachable_inbox (box : Inbox) : Prop :=
  exists calls, box = fold_left deliver calls emptyInbox.

(* ================================================================== *)
(** * The list of visitors                                             *)
(* ================================================================== *)

Definition lastVisit_ge (a b : Visitor) : Prop :=
  Visitors.lastVisit b <= Visitors.lastVisit a.

Fixpoint insert_by_lastVisit (v : Visitor) (l : list Visitor) : list Visitor :=
  match l with
  | [] => [v]
  | h :: t =>
      if Visitors.lastVisit h <? Visitors.lastVisit v
      then v :: h :: t else h :: insert_by_lastVisit v t
  end.

(** One ordering the engine may produce for [orderBy(desc(lastVisit))]. *)
Definition sort_by_lastVisit (l : list Visitor) : list Visitor :=
  fold_right insert_by_lastVisit [] l.

Section Paging.

(** [orderBy(desc(visitors.lastVisit))]: the order among rows of equal last
    visit is the engine's choice. *)
Variable orderByLastVisitDesc : list Visitor -> list Visitor.

(** [getVisitors(limit = 100, offset = 0)], called with non-negative
    integers; [None] is an argument left out. *)
Definition getVisitors (limit offset : option nat) (st : Store) : list Visitor :=
  let limit := match limit with Some n => n | None => 100%nat end in
  let offset := match offset with Some n => n | None => 0%nat end in
  firstn limit (skipn offset (orderByLastVisitDesc (visitors st))).

End Paging.

(* ================================================================== *)
(** * The other routes                                                 *)
(* ================================================================== *)

(** ** The length of a JavaScript string *)

(** [s.length] counts UTF-16 code units.  In the UTF-8 encoding of the
    string, a continuation byte adds none, the first byte of a sequence of
    four adds two, every other byte adds one. *)
Definition code_units (c : ascii) : nat :=
  let b := N_of_ascii c in
  if (b <? 0x80)%N then 1%nat
  else if (b <? 0xC0)%N then 0%nat
  else if (b <? 0xF0)%N then 1%nat
  else 2%nat.

Fixpoint js_length (s : string) : nat :=
  match s with
  | EmptyString => 0%nat
  | String c s' => (code_units c + js_length s')%nat
  end.

(** ** Validation by the zod schemas *)

(** The issues of a [ZodError]: a property that is missing, and a string
    shorter than the schema asks, with the message the schema gives. *)
Inductive ZodIssue :=
| Required (path : string)
| TooSmall (path : string) (message : string).

(** [z.string().min(min, message)] on one property. *)
Definition string_min (path : string) (min : nat) (message : string)
    (x : option string) : list ZodIssue :=
  match x with
  | None => [Required path]
  | Some s => if (js_length s <? min)%nat then [TooSmall path message] else []
  end.

(** [z.string()] on one property. *)
Definition string_required (path : string) (x : option string) : list ZodIssue :=
  match x with
  | None => [Required path]
  | Some _ => []
  end.

(** The body of a login request. *)
Record LoginBody := {
  login_body_username : option string;
  login_body_password : option string
}.

(** [loginUserSchema.parse(req.body)]: the parsed data, or the issues of the
    [ZodError] it throws. *)
Definition loginUserSchema_parse (body : LoginBody) : LoginUser + list ZodIssue :=
  match login_body_username body, login_body_password body,
        string_min "username" 3 "Username minimal 3 karakter"
                   (login_body_username body) ++
        string_min "password" 6 "Password minimal 6 karakter"
                   (login_body_password body)
  with
  | Some username, Some password, [] =>
      inl {| login_username := username; login_password := password |}
  | _, _, issues => inr issues
  end.

(** The body of a contact request. *)
Record ContactBody := {
  contact_name : option string;
  contact_email : option string;
  contact_subject : option string;
  contact_message : option string
}.

(** [insertMessageSchema.parse(req.body)] *)
Definition insertMessageSchema_parse (body : ContactBody)
  : InsertMessage + list ZodIssue :=
  match contact_name body, contact_email body,
        contact_subject body, contact_message body with
  | Some name, Some email, Some subject, Some message =>
      inl {| insert_name := name; insert_email := email;
             insert_subject := subject; insert_message := message |}
  | _, _, _, _ =>
      inr (string_required "name" (contact_name body) ++
           string_required "email" (contact_email body) ++
           string_required "subject" (contact_subject body) ++
           string_required "message" (contact_message body))
  end.

(** [res.status(status).json({success, message, data})] *)
Record ContactResponse := {
  contact_status : Z;
  contact_success : bool;
  contact_text : string;
  contact_data : option Message
}.

Definition invalidCredentialsResponse : Response :=
  {| status := 401; success := false;
     message := "Username atau password salah"; user := None |}.

Definition loggedInResponse (u : User) : Response :=
  {| status := 200; success := true;
     message := "Login berhasil"; user := Some (withoutSensitiveData u) |}.

Definition loginFailureResponse : Response :=
  {| status := 500; success := false;
     message := "Gagal melakukan login"; user := None |}.

Definition contactFailureResponse : ContactResponse :=
  {| contact_status := 500; contact_success := false;
     contact_text := "Failed to send message"; contact_data := None |}.

Section ZodRoutes.

(** [fromZodError(error).message]: the text the validation library makes of
    the issues. *)
Variable fromZodError : list ZodIssue -> string.

(** [app.post("/api/auth/login", ...)].  The [catch] answers a [ZodError]
    with status 400 and anything else that was thrown with status 500. *)
Definition login (env : Env) (body : LoginBody) (st : Store) : Response * Store :=
  match loginUserSchema_parse body with
  | inr issues =>
      ({| status := 400; success := false;
          message := fromZodError issues; user := None |}, st)
  | inl loginData =>
      match verifyUser st loginData with
      | Thrown _ => (loginFailureResponse, st)
      | Returned None => (invalidCredentialsResponse, st)
      | Returned (Some user) =>
          (loggedInResponse user, updateLastLogin env (Users.id user) st)
      end
  end.

(** [app.post("/api/contact", ...)] *)
Definition contact (env : Env) (body : ContactBody) (box : Inbox)
  : ContactResponse * Inbox :=
  match insertMessageSchema_parse body with
  | inr issues =>
      ({| contact_status := 400; contact_success := false;
          contact_text := fromZodError issues; contact_data := None |}, box)
  | inl messageData =>
      match createMessage env messageData box with
      | (Returned message, box') =>
          ({| contact_status := 201; contact_success := true;
              contact_text := "Message sent successfully";
              contact_data := Some message |}, box')
      | (Thrown _, box') => (contactFailureResponse, box')
      end
  end.

End ZodRoutes.

(** The body of an update-password request: [userId] a number. *)
Record UpdatePasswordBody := {
  body_userId : option Z;
  body_newPassword : option string
}.

Definition passwordFieldsResponse : Response :=
  {| status := 400; success := false;
     message := "User ID dan password baru harus diisi"; user := None |}.

Definition passwordTooShortResponse : Response :=
  {| status := 400; success := false;
     message := "Password minimal 6 karakter"; user := None |}.

Definition passwordUpdatedResponse : Response :=
  {| status := 200; success := true;
     message := "Password berhasil diperbarui"; user := None |}.

Definition userNotFoundResponse : Response :=
  {| status := 404; success := false;
     message := "User tidak ditemukan"; user := None |}.

(** [app.post("/api/auth/update-password", ...)].  The number 0, like a
    missing property and the empty string, is falsy. *)
Definition updatePassword (env : Env) (body : UpdatePasswordBody) (st : Store)
  : Response * Store :=
  match body_userId body, body_newPassword body with
  | Some userId, Some (String c p) =>
      let newPassword := String c p in
      if userId =? 0 then (passwordFieldsResponse, st)
      else if (js_length newPassword <? 6)%nat then (passwordTooShortResponse, st)
      else
        match updateUserPassword env userId newPassword st with
        | (true, st') => (passwordUpdatedResponse, st')
        | (false, st') => (userNotFoundResponse, st')
        end
  | _, _ => (passwordFieldsResponse, st)
  end.

(** [orderBy(desc(users.id))] *)
Fixpoint insert_by_id (u : User) (l : list User) : list User :=
  match l with
  | [] => [u]
  | h :: t =>
      if Users.id h <? Users.id u then u :: h :: t else h :: insert_by_id u t
  end.

Definition orderByIdDesc (l : list User) : list User :=
  fold_right insert_by_id [] l.

(** [res.json({success: true, users: allUsers})] *)
Record UsersResponse := {
  users_success : bool;
  users_listed : list PublicUser
}.

(** [app.get("/api/admin/users", ...)]: the request is not read. *)
Definition adminUsers (st : Store) : UsersResponse :=
  {| users_success := true;
     users_listed := map withoutSensitiveData (orderByIdDesc (users st)) |}.

(* ================================================================== *)
(** * Vocabulary of the properties                                     *)
(* ================================================================== *)














(** The number of rows whose column holds the key. *)
Definition rows_with (key : Visitor -> option string) (k : option string)
    (rows : list Visitor) : Z :=
  Z.of_nat (List.length (filter (fun v => same_key (key v) k) rows)).

(** The count a list of groups records for a key, 0 when it has none. *)
Fixpoint count_of (k : option string) (groups : list group) : Z :=
  match groups with
  | [] => 0
  | (k', c) :: rest => if same_key k k' then c else count_of k rest
  end.

(** What holds of a breakdown [returned] by [getVisitorStats], [raw] being
    the result of its query:
    - no group of the query has a null key;
    - there are at most 10 entries;
    - the entries are in descending order of count;
    - the entries are the groups of the query, in the same order: each
      stands for the rows of the table that hold one key, with their number
      as count, and carries that key unchanged when the key is not the empty
      string. *)
Definition entry_of (key : Visitor -> option string) (st : Store)
    (g : group) (r : string * Z) : Prop :=
  exists k, fst g = Some k /\
            snd g = rows_with key (Some k) (visitors st) /\
            1 <= snd g /\
            snd r = snd g /\
            (k <> EmptyString -> fst r = k).

Definition breakdown_ok (key : Visitor -> option string) (st : Store)
    (raw : list group) (returned : list (string * Z)) : Prop :=
  Forall (fun g => fst g <> None) raw /\
  (List.length returned <= 10)%nat /\
  StronglySorted (fun a b => snd b <= snd a) returned /\
  NoDup (map fst raw) /\
  Forall2 (entry_of key st) raw returned.

(** The invariant of the user table: ids grow along the table and stay
    below the serial; usernames and emails are distinct and free of
    U+0000. *)
Definition users_ok (st : Store) : Prop :=
  StronglySorted (fun a b => Users.id a < Users.id b) (users st) /\
  Forall (fun u => Users.id u < users_id_seq st) (users st) /\
  NoDup (map Users.username (users st)) /\
  NoDup (map Users.email (users st)) /\
  Forall (fun u => has_nul (Users.username u) = false /\
                   has_nul (Users.email u) = false) (users st).

(** The same for the message table. *)
Definition inbox_ok (box : Inbox) : Prop :=
  NoDup (map Messages.id (messages box)) /\
  Forall (fun m => Messages.id m < messages_id_seq box) (messages box).

(** A byte, and a buffer of 64 bytes. *)
Definition byte_range (b : Z) : Prop := 0 <= b < 256.

Definition digest (bs : Crypto.buffer) : Prop :=
  List.length bs = 64%nat /\ Forall byte_range bs.

(** A string of lower-case hexadecimal digits. *)
Definition is_hex (c : ascii) : bool :=
  existsb (Ascii.eqb c) (list_ascii_of_string "0123456789abcdef").

Definition all_hex (s : string) : bool :=
  forallb is_hex (list_ascii_of_string s).

(** The sum of the counts of a list of groups. *)
Definition total_count {K : Type} (l : list (K * Z)) : Z :=
  fold_right (fun e acc => snd e + acc) 0 l.

(** [n] NUL characters. *)
Fixpoint nuls (n : nat) : string :=
  match n with
  | O => EmptyString
  | S n' => String Ascii.zero (nuls n')
  end.

(** What [updateVisitor] makes of a column: the value of the key when the
    data has the key (null clears the column), the old value when it has
    not. *)
Definition overwritten (x : optional) (before after : option string) : Prop :=
  match x with
  | Some (Some s) => after = Some s
  | Some None => after = None
  | None => after = before
  end.

(* ================================================================== *)
(** * Concrete inputs                                                  *)
(* ================================================================== *)

(** The inputs at which the properties below are exercised. *)

Definition env0 : Env := {| now := 1700000000000; rand := fun i => Z.of_nat i |}.
Definition env1 : Env := {| now := 1700000060000; rand := fun i => Z.of_nat (i + 16) |}.
Definition env2 : Env := {| now := 1700000120000; rand := fun i => Z.of_nat (i + 32) |}.

(** The NUL character as a string. *)
Definition nul : string := String Ascii.zero EmptyString.

Definition alice : UserData :=
  {| data_username := "alice"; data_email := "alice@x.com";
     data_password := "secret1"; data_role := None |}.

Definition alice_user : User :=
  Users.Row 1 "alice" "alice@x.com"
    (hashPassword "secret1" (generateSalt (rand env0)))
    (generateSalt (rand env0)) "user" true (now env0) None.

Definition alice_store : Store :=
  {| users := [alice_user]; users_id_seq := 2;
     visitors := []; visitors_id_seq := 1 |}.

Definition alice_body : RegisterBody :=
  {| body_username := Some "alice"%string; body_email := Some "alice@x.com"%string;
     body_password := Some "secret1"%string |}.

Definition alice_again : RegisterBody :=
  {| body_username := Some "alice"%string; body_email := Some "other@x.com"%string;
     body_password := Some "secret2"%string |}.

(** A login whose username has the character U+0000 in the middle. *)
Definition nul_login : LoginUser :=
  {| login_username := "a" ++ nul ++ "b"; login_password := "secret1" |}.

(** A registration under the email of "alice", with a username that has
    the character U+0000 in the middle. *)
Definition nul_body : RegisterBody :=
  {| body_username := Some ("a" ++ nul ++ "b")%string;
     body_email := Some "alice@x.com"%string;
     body_password := Some "secret2"%string |}.

(** An observation that provides the listed columns only. *)
Definition observation (ip country device : optional) : InsertVisitor :=
  InsertVisitor.Make ip None None None country None device None None
    None None None None None.

Definition visit_a : InsertVisitor :=
  observation (Some (Some "10.0.0.1"%string)) (Some (Some "US"%string)) (Some None).


(** An address of 55 characters. *)
Definition long_address : string :=
  "0000:0000:0000:0000:0000:ffff:192.168.100.100%enp0s31f6".

Definition visit_long : InsertVisitor :=
  observation (Some (Some long_address)) None None.

(** The header [Accept-Language] of a browser, 64 characters. *)
Definition long_language : string :=
  "en-US,en;q=0.9,de-DE;q=0.8,de;q=0.7,fr-FR;q=0.6,fr;q=0.5,es;q=0.4".

Definition visit_a_long : InsertVisitor :=
  InsertVisitor.Make (Some (Some "10.0.0.1"%string)) None None
    (Some (Some long_language)) None None None None None
    None None None None None.

(** An object with keys outside the declared type, and what it makes of
    the row of the first visitor. *)
Definition other_keys : InsertVisitor :=
  InsertVisitor.Make None None None None None None None None None
    (Some 7) (Some (Some false)) (Some (Some 100)) (Some 5) (Some 0).

Definition rewritten : Visitor :=
  Visitors.Row 7 (Some "10.0.0.1"%string) None None None (Some "US"%string)
    None None None None (Some false) (Some 2) 1700000060000 0.


Definition visitor_a : Visitor :=
  Visitors.Row 1 (Some "10.0.0.1"%string) None None None (Some "US"%string)
    None None None None (Some true) (Some 1) (now env0) (now env0).

Definition store_a : Store :=
  {| users := []; users_id_seq := 1;
     visitors := [visitor_a]; visitors_id_seq := 2 |}.

(** Visitors from three addresses, two of them in the same country. *)
Definition three_visits : list Call :=
  [ CreateVisitor env0 (observation (Some (Some "10.0.0.1"%string))
                                    (Some (Some "US"%string)) None);
    CreateVisitor env1 (observation (Some (Some "10.0.0.2"%string))
                                    (Some (Some "US"%string)) None);
    CreateVisitor env2 (observation (Some (Some "10.0.0.3"%string))
                                    (Some (Some "DE"%string)) None) ].

(** A visitor whose country is the empty string. *)
Definition visit_blank : InsertVisitor :=
  observation (Some (Some "10.0.0.9"%string)) (Some (Some EmptyString)) None.

Definition store_blank : Store := run [CreateVisitor env0 visit_blank] emptyStore.

(** A table of three rows, two of them marked unique. *)
Definition returning_visitor : Visitor :=
  Visitors.Row 3 (Some "10.0.0.3"%string) None None None None None None None None
    (Some false) (Some 4) (now env2) (now env0).

Definition store_mixed : Store :=
  {| users := []; users_id_seq := 1;
     visitors := [visitor_a; returning_visitor;
                  Visitors.Row 2 (Some "10.0.0.2"%string) None None None None
                    None None None None (Some true) (Some 1) (now env1) (now env1)];
     visitors_id_seq := 4 |}.

(** A registration with a username of two characters and a password of
    three. *)
Definition short_body : RegisterBody :=
  {| body_username := Some "al"%string; body_email := Some "al@x.com"%string;
     body_password := Some "abc"%string |}.

Definition short_user : User :=
  Users.Row 1 "al" "al@x.com"
    (hashPassword "abc" (generateSalt (rand env0)))
    (generateSalt (rand env0)) "user" true (now env0) None.

Definition short_store : Store :=
  {| users := [short_user]; users_id_seq := 2;
     visitors := []; visitors_id_seq := 1 |}.

(** One way to print the issues of a validation error. *)
Definition count_issues (issues : list ZodIssue) : string :=
  match issues with
  | [] => "Validation error"
  | [_] => "Validation error: 1 issue"
  | _ => "Validation error: several issues"
  end.

Definition hello : InsertMessage :=
  {| insert_name := "Bob"; insert_email := "bob@x.com";
     insert_subject := "Hello"; insert_message := "A question" |}.

(* ================================================================== *)
(** * Properties of the hashing primitives                             *)
(* ================================================================== *)

(** The model agrees with the published test vectors. *)
Example sha512_abc :
  Crypto.toHex (Crypto.sha512 (Crypto.bytes_of_string "abc")) =
  ("ddaf35a193617abacc417349ae20413112e6fa4e89a97ea20a9eeee64b55d39a" ++
   "2192992a274fc1a836ba3c23a3feebbd454d4423643ce80e2a9ac94fa54ca49f")%string.
Proof. vm_compute. reflexivity. Qed.

Example pbkdf2_password_salt_1 :
  Crypto.toHex (Crypto.pbkdf2Sync "password" "salt" 1 64) =
  ("867f70cf1ade02cff3752599a3a53dc4af34c7a669815ae5d513554e1c8cf252" ++
   "c02d470a285a0501bad999bfe943c08f050235d7d68b1da55e63f73b60a57fce")%string.
Proof. vm_compute. reflexivity. Qed.

Module CryptoFacts.
Import Crypto.

Lemma list_ascii_app (a b : string) :
  list_ascii_of_string (a ++ b) = list_ascii_of_string a ++ list_ascii_of_string b.
Proof.
  induction a as [| c a IH]; simpl.
  - reflexivity.
  - now rewrite IH.
Qed.

Lemma bytes_of_string_app (a b : string) :
  bytes_of_string (a ++ b) = bytes_of_string a ++ bytes_of_string b.
Proof.
  unfold bytes_of_string. now rewrite list_ascii_app, map_app.
Qed.

Lemma length_bytes_of_string (s : string) :
  List.length (bytes_of_string s) = String.length s.
Proof.
  unfold bytes_of_string. rewrite length_map.
  induction s as [| c s IH]; simpl; congruence.
Qed.

(** HMAC pads a short key with zero bytes: a key and the same key followed
    by a zero byte are the same key. *)
Lemma hmac_key_trailing_zero (k : buffer) :
  (List.length k < block_size)%nat -> hmac_key (k ++ [0]) = hmac_key k.
Proof.
  intros Hlen. unfold hmac_key.
  assert (Hk : (block_size <? List.length k)%nat = false)
    by (apply Nat.ltb_ge; lia).
  assert (Hk0 : (block_size <? List.length (k ++ [0%Z]))%nat = false)
    by (apply Nat.ltb_ge; rewrite length_app; simpl; lia).
  rewrite Hk, Hk0, length_app. simpl List.length.
  replace (block_size - List.length k)%nat
    with (S (block_size - (List.length k + 1)))%nat by lia.
  rewrite <- app_assoc. reflexivity.
Qed.

Lemma pbkdf2Sync_trailing_nul (password salt : string) (c n : nat) :
  (String.length password < block_size)%nat ->
  pbkdf2Sync (password ++ String Ascii.zero EmptyString) salt c n =
  pbkdf2Sync password salt c n.
Proof.
  intros Hlen. unfold pbkdf2Sync, hmac_sha512.
  rewrite bytes_of_string_app.
  change (bytes_of_string (String Ascii.zero EmptyString)) with [0].
  rewrite hmac_key_trailing_zero; [reflexivity |].
  now rewrite length_bytes_of_string.
Qed.

End CryptoFacts.

(** Passwords that differ only by a trailing NUL character have the same
    hash under every salt. *)
Lemma hashPassword_trailing_nul (password salt : string) :
  (String.length password < 128)%nat ->
  hashPassword (password ++ String Ascii.zero EmptyString) salt =
  hashPassword password salt.
Proof.
  intros Hlen. unfold hashPassword.
  now rewrite CryptoFacts.pbkdf2Sync_trailing_nul.
Qed.

(** From here on the hash is used through the lemma above and through its
    being a function only. *)
Opaque hashPassword generateSalt.

(* ================================================================== *)
(** * Lookups in a table                                               *)
(* ================================================================== *)

Section Tables.
Context {A : Type}.


Lemma find_none_iff (q : A -> bool) (l : list A) :
  find q l = None <-> forall x, In x l -> q x = false.
Proof.
  split.
  - intros H x Hx. exact (find_none q l H x Hx).
  - induction l as [| x l IH]; simpl; intros H.
    + reflexivity.
    + rewrite (H x (or_introl eq_refl)). apply IH.
      intros y Hy. apply H. now right.
Qed.

Lemma find_existsb_false (q : A -> bool) (l : list A) :
  existsb q l = false -> find q l = None.
Proof.
  induction l as [| x l IH]; simpl.
  - reflexivity.
  - destruct (q x); simpl; [discriminate | exact IH].
Qed.

(** A lookup in a table after a row was appended. *)
Lemma find_app_last (q : A -> bool) (l : list A) (x : A) :
  find q (l ++ [x]) =
  match find q l with
  | Some y => Some y
  | None => if q x then Some x else None
  end.
Proof.
  induction l as [| y l IH]; simpl.
  - reflexivity.
  - destruct (q y); [reflexivity | exact IH].
Qed.

End Tables.

(* ================================================================== *)
(* ================================================================== *)
(** * The credential store                                             *)
(* ================================================================== *)

Lemma verifyPassword_true_iff (password salt storedHash : string) :
  verifyPassword password salt storedHash = true <->
  storedHash = hashPassword password salt.
Proof.
  unfold verifyPassword. rewrite String.eqb_eq. split; congruence.
Qed.

(** C7.  [hashPassword] is a function of the password and the salt alone:
    equal inputs give equal hashes.  [verifyPassword] answers true exactly
    when the stored hash is the hash of the password under the salt, and so
    it accepts every hash that [hashPassword] produced from the same
    password and salt. *)
Theorem verifyPassword_iff_hashPassword :
  (forall p1 s1 p2 s2 : string,
      p1 = p2 -> s1 = s2 -> hashPassword p1 s1 = hashPassword p2 s2) /\
  (forall password salt storedHash : string,
      verifyPassword password salt storedHash = true <->
      storedHash = hashPassword password salt) /\
  (forall password salt : string,
      verifyPassword password salt (hashPassword password salt) = true).
Proof.
  split; [| split].
  - intros p1 s1 p2 s2 Hp Hs. now subst.
  - exact verifyPassword_true_iff.
  - intros password salt. now apply verifyPassword_true_iff.
Qed.

(** The lookups by a string: they throw on a string with U+0000 and read the
    table otherwise. *)
Lemma getUserByUsername_returned (st : Store) (name : string) (r : option User) :
  getUserByUsername st name = Returned r <->
  has_nul name = false /\
  r = find (fun u => String.eqb (Users.username u) name) (users st).
Proof.
  unfold getUserByUsername. destruct (has_nul name).
  - split; [discriminate | intros [H _]; discriminate].
  - split.
    + intros H. injection H as <-. auto.
    + intros [_ ->]. reflexivity.
Qed.

Lemma getUserByEmail_returned (st : Store) (mail : string) (r : option User) :
  getUserByEmail st mail = Returned r <->
  has_nul mail = false /\
  r = find (fun u => String.eqb (Users.email u) mail) (users st).
Proof.
  unfold getUserByEmail. destruct (has_nul mail).
  - split; [discriminate | intros [H _]; discriminate].
  - split.
    + intros H. injection H as <-. auto.
    + intros [_ ->]. reflexivity.
Qed.

Lemma getUserByUsername_thrown (st : Store) (name : string) :
  has_nul name = true <-> exists e, getUserByUsername st name = Thrown e.
Proof.
  unfold getUserByUsername. destruct (has_nul name).
  - split; eauto.
  - split; [discriminate | intros [e H]; discriminate].
Qed.

Lemma getUserByEmail_thrown (st : Store) (mail : string) :
  has_nul mail = true <-> exists e, getUserByEmail st mail = Thrown e.
Proof.
  unfold getUserByEmail. destruct (has_nul mail).
  - split; eauto.
  - split; [discriminate | intros [e H]; discriminate].
Qed.

(** [verifyUser] in terms of the row [getUserByUsername] finds. *)
Lemma verifyUser_some_iff (st : Store) (loginData : LoginUser) (u : User) :
  verifyUser st loginData = Returned (Some u) <->
  getUserByUsername st (login_username loginData) = Returned (Some u) /\
  Users.isActive u = true /\
  hashPassword (login_password loginData) (Users.salt u) = Users.password u.
Proof.
  unfold verifyUser.
  destruct (getUserByUsername st (login_username loginData)) as [[found |] | e];
    cbn [bind].
  - destruct (Users.isActive found) eqn:Hactive; simpl.
    + destruct (verifyPassword (login_password loginData) (Users.salt found)
                  (Users.password found)) eqn:Hv.
      * apply verifyPassword_true_iff in Hv. split.
        -- intros H. injection H as <-.
           split; [reflexivity | split; [exact Hactive | now symmetry]].
        -- intros [H _]. exact H.
      * split; [discriminate |].
        intros [H [_ Hh]]. injection H as ->.
        symmetry in Hh. apply verifyPassword_true_iff in Hh. congruence.
    + split; [discriminate |].
      intros [H [Ha _]]. injection H as ->. congruence.
  - split; [discriminate | intros [H _]; discriminate].
  - split; [discriminate | intros [H _]; discriminate].
Qed.

Lemma verifyUser_thrown_iff (st : Store) (loginData : LoginUser) :
  has_nul (login_username loginData) = true <->
  exists e, verifyUser st loginData = Thrown e.
Proof.
  rewrite (getUserByUsername_thrown st). unfold verifyUser.
  destruct (getUserByUsername st (login_username loginData)) as [[found |] | e];
    cbn [bind].
  - split; [intros [e H]; discriminate |].
    intros [e H]. exfalso.
    destruct (negb (Users.isActive found)); [discriminate |].
    destruct (verifyPassword _ _ _); discriminate.
  - split; intros [e H]; discriminate.
  - split; eauto.
Qed.

Lemma verifyUser_none_iff (st : Store) (loginData : LoginUser) :
  verifyUser st loginData = Returned None <->
  has_nul (login_username loginData) = false /\
  forall u, getUserByUsername st (login_username loginData) = Returned (Some u) ->
            Users.isActive u = false \/
            hashPassword (login_password loginData) (Users.salt u) <> Users.password u.
Proof.
  split.
  - intros Hnone. split.
    + destruct (has_nul (login_username loginData)) eqn:Hn; [| reflexivity].
      apply (verifyUser_thrown_iff st) in Hn. destruct Hn as [e He]. congruence.
    + intros u Hfound.
      destruct (Users.isActive u) eqn:Ha; [right | now left].
      intros Hh.
      assert (verifyUser st loginData = Returned (Some u)) as Hs
        by (apply verifyUser_some_iff; auto).
      congruence.
  - intros [Hclean H].
    destruct (verifyUser st loginData) as [[u |] | e] eqn:Hv; [| reflexivity |].
    + apply verifyUser_some_iff in Hv. destruct Hv as [Hf [Ha Hh]].
      destruct (H u Hf) as [Hi | Hm]; congruence.
    + assert (Ht : has_nul (login_username loginData) = true)
        by (apply (verifyUser_thrown_iff st); eauto).
      congruence.
Qed.


(** C5 as the specification words it fails: no user of the store has the
    username, and [verifyUser] throws instead of returning null. *)
Lemma verifyUser_absent_user_throws :
  (forall u, In u (users alice_store) ->
             Users.username u <> login_username nul_login) /\
  verifyUser alice_store nul_login = Thrown InvalidByteSequence.
Proof.
  split; [| reflexivity].
  intros u [<- | []]. discriminate.
Qed.

(** What [createUser] has done when it returns. *)
Lemma createUser_returned (env : Env) (userData : UserData) (st st' : Store)
    (newUser : User) :
  createUser env userData st = (Returned newUser, st') ->
  newUser = Users.Row (users_id_seq st)
              (data_username userData) (data_email userData)
              (hashPassword (data_password userData) (generateSalt (rand env)))
              (generateSalt (rand env))
              (or_default (data_role userData) "user")
              true (now env) None /\
  users st' = users st ++ [newUser] /\
  getUserByUsername st (data_username userData) = Returned None /\
  getUserByEmail st (data_email userData) = Returned None /\
  has_nul (or_default (data_role userData) "user") = false.
Proof.
  unfold createUser.
  destruct (has_nul (data_username userData)) eqn:Nname; [discriminate |].
  destruct (has_nul (data_email userData)) eqn:Nmail; [discriminate |].
  destruct (has_nul (or_default (data_role userData) "user")) eqn:Nrole;
    [discriminate |].
  cbn [orb].
  destruct (existsb (fun u => String.eqb (Users.username u) (data_username userData))
              (users st)) eqn:Hname; [discriminate |].
  destruct (existsb (fun u => String.eqb (Users.email u) (data_email userData))
              (users st)) eqn:Hmail; [discriminate |].
  intros H. injection H as Hu Hst. subst st'. cbn [users].
  split; [now symmetry |]. split; [now rewrite Hu |].
  split; [| split; [| reflexivity]].
  - apply getUserByUsername_returned. split; [exact Nname |].
    symmetry. now apply find_existsb_false.
  - apply getUserByEmail_returned. split; [exact Nmail |].
    symmetry. now apply find_existsb_false.
Qed.

(** [createUser] returns when neither the username nor the email is taken
    and the role has no U+0000. *)
Lemma createUser_returns (env : Env) (userData : UserData) (st : Store) :
  getUserByUsername st (data_username userData) = Returned None ->
  getUserByEmail st (data_email userData) = Returned None ->
  has_nul (or_default (data_role userData) "user") = false ->
  exists newUser st', createUser env userData st = (Returned newUser, st').
Proof.
  intros Hname Hmail Hrole.
  apply getUserByUsername_returned in Hname. destruct Hname as [Nname Hname].
  apply getUserByEmail_returned in Hmail. destruct Hmail as [Nmail Hmail].
  symmetry in Hname, Hmail. unfold createUser.
  rewrite Nname, Nmail, Hrole. cbn [orb].
  assert (Hn : existsb (fun u => String.eqb (Users.username u) (data_username userData))
                 (users st) = false).
  { apply not_true_is_false. intros E.
    apply existsb_exists in E. destruct E as [x [Hx Hp]].
    rewrite (proj1 (find_none_iff _ _) Hname x Hx) in Hp. discriminate. }
  assert (Hm : existsb (fun u => String.eqb (Users.email u) (data_email userData))
                 (users st) = false).
  { apply not_true_is_false. intros E.
    apply existsb_exists in E. destruct E as [x [Hx Hp]].
    rewrite (proj1 (find_none_iff _ _) Hmail x Hx) in Hp. discriminate. }
  rewrite Hn, Hm. eauto.
Qed.

(** The user [createUser] returned is the one its username finds. *)
Lemma getUserByUsername_created (env : Env) (userData : UserData)
    (st st' : Store) (newUser : User) :
  createUser env userData st = (Returned newUser, st') ->
  getUserByUsername st' (data_username userData) = Returned (Some newUser).
Proof.
  intros H. apply createUser_returned in H.
  destruct H as [Hu [Hst [Hname _]]].
  apply getUserByUsername_returned in Hname. destruct Hname as [Nname Hname].
  apply getUserByUsername_returned. split; [exact Nname |].
  rewrite Hst, find_app_last, <- Hname.
  rewrite Hu at 2. simpl. now rewrite String.eqb_refl.
Qed.

(** Logging in as a user just created: the outcome is decided by the hash
    of the password tried alone. *)
Lemma verifyUser_created (env : Env) (userData : UserData) (st st' : Store)
    (newUser : User) (tried : string) :
  createUser env userData st = (Returned newUser, st') ->
  (hashPassword tried (Users.salt newUser) =
   hashPassword (data_password userData) (Users.salt newUser) ->
   verifyUser st' {| login_username := data_username userData;
                     login_password := tried |} = Returned (Some newUser)) /\
  (hashPassword tried (Users.salt newUser) <>
   hashPassword (data_password userData) (Users.salt newUser) ->
   verifyUser st' {| login_username := data_username userData;
                     login_password := tried |} = Returned None).
Proof.
  intros Hcreate.
  pose proof (getUserByUsername_created _ _ _ _ _ Hcreate) as Hfound.
  apply createUser_returned in Hcreate. destruct Hcreate as [Hu _].
  assert (Hpw : Users.password newUser =
                hashPassword (data_password userData) (Users.salt newUser))
    by (rewrite Hu; reflexivity).
  assert (Hact : Users.isActive newUser = true) by (rewrite Hu; reflexivity).
  split; intros Hh.
  - apply verifyUser_some_iff. simpl. rewrite Hpw. auto.
  - apply verifyUser_none_iff. simpl. split.
    + now apply getUserByUsername_returned in Hfound.
    + intros u Hf. right.
      assert (u = newUser) by congruence. subst u. now rewrite Hpw.
Qed.

(** C6 (as the code has it).  After [createUser] has returned a user, that
    user is active and [verifyUser] with the same username and the same
    password returns it; with another password [verifyUser] returns null
    whenever that password's hash under the user's salt differs from the
    stored one, and returns the user when the two hashes coincide. *)
Theorem createUser_then_verifyUser (env : Env) (userData : UserData)
    (st st' : Store) (newUser : User) :
  createUser env userData st = (Returned newUser, st') ->
  Users.isActive newUser = true /\
  verifyUser st' {| login_username := data_username userData;
                    login_password := data_password userData |}
    = Returned (Some newUser) /\
  (forall other : string,
      hashPassword other (Users.salt newUser) <>
      hashPassword (data_password userData) (Users.salt newUser) ->
      verifyUser st' {| login_username := data_username userData;
                        login_password := other |} = Returned None) /\
  (forall other : string,
      hashPassword other (Users.salt newUser) =
      hashPassword (data_password userData) (Users.salt newUser) ->
      verifyUser st' {| login_username := data_username userData;
                        login_password := other |} = Returned (Some newUser)).
Proof.
  intros Hcreate. split; [| split; [| split]].
  - apply createUser_returned in Hcreate. destruct Hcreate as [Hu _].
    rewrite Hu. reflexivity.
  - now apply (verifyUser_created env userData st st' newUser).
  - intros other. now apply (verifyUser_created env userData st st' newUser).
  - intros other. now apply (verifyUser_created env userData st st' newUser).
Qed.

(** The hypothesis of the theorem holds for the first user of an empty
    store. *)
Lemma createUser_then_verifyUser_witness :
  createUser env0 alice emptyStore = (Returned alice_user, alice_store) /\
  (Users.isActive alice_user = true /\
   verifyUser alice_store {| login_username := data_username alice;
                             login_password := data_password alice |}
     = Returned (Some alice_user) /\
   (forall other : string,
       hashPassword other (Users.salt alice_user) <>
       hashPassword (data_password alice) (Users.salt alice_user) ->
       verifyUser alice_store {| login_username := data_username alice;
                                 login_password := other |} = Returned None) /\
   (forall other : string,
       hashPassword other (Users.salt alice_user) =
       hashPassword (data_password alice) (Users.salt alice_user) ->
       verifyUser alice_store {| login_username := data_username alice;
                                 login_password := other |}
         = Returned (Some alice_user))).
Proof.
  split.
  - reflexivity.
  - apply (createUser_then_verifyUser env0 alice emptyStore alice_store alice_user).
    reflexivity.
Defined.

(** C6 as the specification words it fails: a password other than the one
    the user was created with is accepted.  The key of HMAC is padded with
    zero bytes, so the password followed by a NUL character has the same
    hash. *)
Lemma createUser_then_verifyUser_other_password :
  createUser env0 alice emptyStore = (Returned alice_user, alice_store) /\
  ("secret1" ++ nul)%string <> data_password alice /\
  verifyUser alice_store {| login_username := "alice";
                            login_password := "secret1" ++ nul |}
    = Returned (Some alice_user).
Proof.
  assert (Hcreate : createUser env0 alice emptyStore = (Returned alice_user, alice_store))
    by reflexivity.
  split; [exact Hcreate |]. split; [discriminate |].
  apply (verifyUser_created env0 alice emptyStore alice_store alice_user _ Hcreate).
  apply hashPassword_trailing_nul. simpl. lia.
Qed.


(* ================================================================== *)
(** * The registration route                                           *)
(* ================================================================== *)




Lemma getUserByEmail_free (st : Store) (mail : string) (u : User) :
  getUserByEmail st mail = Returned (Some u) -> email_taken st (Some mail).
Proof.
  intros H. apply getUserByEmail_returned in H. destruct H as [_ H].
  symmetry in H. apply find_some in H. destruct H as [Hin Heq].
  apply String.eqb_eq in Heq. exists u. split; [exact Hin | congruence].
Qed.






(** C9 as the specification words it fails: the email of the request is the
    email of a registered user, and the request is answered with status
    500, not with a conflict. *)
Lemma register_taken_email_not_reported :
  register env0 alice_body emptyStore = (registeredResponse alice_user, alice_store) /\
  provided (body_username nul_body) /\ provided (body_email nul_body) /\
  provided (body_password nul_body) /\
  email_taken alice_store (body_email nul_body) /\
  register env1 nul_body alice_store = (registerFailureResponse, alice_store) /\
  registerFailureResponse <> emailConflictResponse /\
  registerFailureResponse <> usernameConflictResponse.
Proof.
  split; [reflexivity |].
  split; [unfold provided; simpl; eauto |].
  split; [unfold provided; simpl; eauto |].
  split; [unfold provided; simpl; eauto |].
  split; [exists alice_user; split; [now left | reflexivity] |].
  split; [reflexivity |]. split; discriminate.
Qed.

Example register_alice_twice :
  fst (register env1 alice_again (snd (register env0 alice_body emptyStore)))
  = usernameConflictResponse.
Proof. reflexivity. Qed.

Example register_without_password :
  fst (register env1 {| body_username := Some "alice"%string;
                        body_email := Some "alice@x.com"%string;
                        body_password := None |} alice_store)
  = validationResponse.
Proof. reflexivity. Qed.

(* ================================================================== *)
(** * The visitor table                                                *)
(* ================================================================== *)

(** ** Strings the columns take as they are *)








(** ** The two statements, case by case *)













(** ** The invariant *)














Lemma reachable_declared_reachable (st : Store) :
  reachable_declared st -> reachable st.
Proof. intros [calls [_ H]]. now exists calls. Qed.

(** ** Counting queries *)

Lemma count_or_zero_select (p : Visitor -> bool) (rows : list Visitor) :
  count_or_zero (select_count p rows) = Z.of_nat (List.length (filter p rows)).
Proof.
  unfold select_count, count_or_zero.
  destruct (Z.of_nat (List.length (filter p rows)) =? 0) eqn:E.
  - apply Z.eqb_eq in E. now rewrite E.
  - reflexivity.
Qed.

Lemma filter_all {A} (l : list A) : filter (fun _ => true) l = l.
Proof. induction l as [| x l IH]; simpl; congruence. Qed.

Lemma totalVisitors_length (ord : list group -> list group) (st : Store) :
  totalVisitors (getVisitorStats ord st) = Z.of_nat (List.length (visitors st)).
Proof.
  unfold getVisitorStats. cbn [totalVisitors].
  now rewrite count_or_zero_select, filter_all.
Qed.

(** ** Lookups by IP address *)





(** ** First sighting *)





Lemma store_a_reachable : reachable_declared store_a.
Proof. exists [CreateVisitor env0 visit_a]. split; reflexivity. Qed.


(** C2 as the specification words it fails: no row carries the IP address of
    the observation, and no row is inserted.  The address has 55 characters
    and the column is 50 wide: the insert is rejected. *)
Lemma recordVisit_rejects_long_address :
  declared visit_long = true /\
  (forall ip, InsertVisitor.ipAddress visit_long = Some (Some ip) ->
     forall r, In r (visitors store_a) -> Visitors.ipAddress r <> Some ip) /\
  recordVisit (fun rows => rows) env1 visit_long store_a
    = (Thrown ValueTooLong, store_a) /\
  createVisitor env1 visit_long store_a = (Thrown ValueTooLong, store_a).
Proof.
  split; [reflexivity |]. split; [| split; reflexivity].
  intros ip Hip r [<- | []]. simpl in *. injection Hip as <-. discriminate.
Qed.

(** ** Repeat visits *)







(** C1 as the specification words it fails: the language of the update has
    more characters than its column is wide, the statement is rejected and
    the visit is not counted. *)
Lemma updateVisitor_rejects_long_value :
  reachable_declared store_a /\ In visitor_a (visitors store_a) /\
  declared visit_a_long = true /\
  InsertVisitor.ipAddress visit_a_long = Some (Visitors.ipAddress visitor_a) /\
  updateVisitor env1 (Visitors.id visitor_a) visit_a_long store_a
    = (Thrown ValueTooLong, store_a) /\
  recordVisit (fun rows => rows) env1 visit_a_long store_a
    = (Thrown ValueTooLong, store_a) /\
  option_map Visitors.visitCount (getVisitor store_a (Visitors.id visitor_a))
    = Some (Some 1).
Proof.
  split; [exact store_a_reachable |]. split; [now left |].
  repeat split.
Qed.

(** ** What [updateVisitor] cannot change *)










(** C10 as the specification words it fails: an object that carries the keys
    [id], [isUnique] and [firstVisit] is an argument of [updateVisitor], and
    the call gives the row another id, clears its uniqueness flag and moves
    its first visit.  The count of the object is not assigned: the row
    counts one more visit. *)
Lemma updateVisitor_rewrites_creation_state :
  createVisitor env0 visit_a emptyStore = (Returned visitor_a, store_a) /\
  updateVisitor env1 (Visitors.id visitor_a) other_keys store_a
    = (Returned (Some rewritten), set_visitors [rewritten] 2 store_a) /\
  Visitors.id rewritten <> Visitors.id visitor_a /\
  Visitors.isUnique rewritten <> Visitors.isUnique visitor_a /\
  Visitors.firstVisit rewritten <> Visitors.firstVisit visitor_a /\
  Visitors.visitCount rewritten = Some 2.
Proof.
  split; [reflexivity |]. split; [reflexivity |].
  repeat split; discriminate.
Qed.

Example visitor_seen_three_times :
  option_map Visitors.visitCount
    (getVisitor (run [CreateVisitor env0 visit_a; UpdateVisitor env1 1 visit_a;
                      UpdateVisitor env2 1 visit_a] emptyStore) 1)
  = Some (Some 3).
Proof. reflexivity. Qed.

(* ================================================================== *)
(** * The statistics engine                                            *)
(* ================================================================== *)

Example visitorsByCountry_three_visits :
  visitorsByCountry (getVisitorStats sort_desc (run three_visits emptyStore))
  = [("US"%string, 2); ("DE"%string, 1)].
Proof. reflexivity. Qed.

(** ** Totals *)

Lemma filter_length_Permutation {A} (p : A -> bool) (l l' : list A) :
  Permutation l l' -> List.length (filter p l) = List.length (filter p l').
Proof.
  intros H. induction H as [| x l l' _ IH | x y l | l l' l'' _ IH1 _ IH2]; simpl.
  - reflexivity.
  - destruct (p x); simpl; congruence.
  - destruct (p x), (p y); reflexivity.
  - congruence.
Qed.

Lemma filter_all_true {A} (p : A -> bool) (l : list A) :
  Forall (fun x => p x = true) l -> filter p l = l.
Proof.
  induction 1 as [| x l Hx _ IH]; simpl; [reflexivity |].
  rewrite Hx. congruence.
Qed.

Lemma filter_all_false {A} (p : A -> bool) (l : list A) :
  Forall (fun x => p x = false) l -> filter p l = [].
Proof.
  induction 1 as [| x l Hx _ IH]; simpl; [reflexivity |].
  now rewrite Hx.
Qed.

Lemma is_true_iff (b : option bool) : is_true b = true <-> b = Some true.
Proof.
  destruct b as [[|] |]; simpl; split; congruence.
Qed.

(** C4.  When the visitor table consists of the rows [marked], whose
    uniqueness flag is true, and the rows [others], whose flag is not (in any
    order), [getVisitorStats] returns the number of all rows as
    [totalVisitors] and the number of [marked] rows as [uniqueVisitors]. *)
Theorem getVisitorStats_totals (ord : list group -> list group) (st : Store)
    (marked others : list Visitor) :
  Permutation (visitors st) (marked ++ others) ->
  Forall (fun v => Visitors.isUnique v = Some true) marked ->
  Forall (fun v => Visitors.isUnique v <> Some true) others ->
  totalVisitors (getVisitorStats ord st) =
    Z.of_nat (List.length marked + List.length others) /\
  uniqueVisitors (getVisitorStats ord st) = Z.of_nat (List.length marked).
Proof.
  intros Hperm Hmarked Hothers. split.
  - rewrite totalVisitors_length, (Permutation_length Hperm), length_app.
    reflexivity.
  - unfold getVisitorStats. cbn [uniqueVisitors].
    rewrite count_or_zero_select.
    rewrite (filter_length_Permutation _ _ _ Hperm), filter_app, length_app.
    rewrite filter_all_true, filter_all_false.
    + simpl. now rewrite Nat.add_0_r.
    + eapply Forall_impl; [| exact Hothers]. intros v Hv. simpl in Hv.
      apply not_true_is_false. intros E. now apply is_true_iff in E.
    + eapply Forall_impl; [| exact Hmarked]. intros v Hv. simpl in Hv.
      now apply is_true_iff.
Qed.

(** Three rows, two marked unique. *)
Lemma getVisitorStats_totals_witness :
  Permutation (visitors store_mixed)
    ([visitor_a;
      Visitors.Row 2 (Some "10.0.0.2"%string) None None None None
        None None None None (Some true) (Some 1) (now env1) (now env1)]
     ++ [returning_visitor]) /\
  Forall (fun v => Visitors.isUnique v = Some true)
    [visitor_a;
     Visitors.Row 2 (Some "10.0.0.2"%string) None None None None
       None None None None (Some true) (Some 1) (now env1) (now env1)] /\
  Forall (fun v => Visitors.isUnique v <> Some true) [returning_visitor] /\
  (totalVisitors (getVisitorStats sort_desc store_mixed) = Z.of_nat (2 + 1) /\
   uniqueVisitors (getVisitorStats sort_desc store_mixed) = Z.of_nat 2).
Proof.
  assert (H1 : Permutation (visitors store_mixed)
    ([visitor_a;
      Visitors.Row 2 (Some "10.0.0.2"%string) None None None None
        None None None None (Some true) (Some 1) (now env1) (now env1)]
     ++ [returning_visitor])).
  { simpl. apply perm_skip. apply perm_swap. }
  assert (H2 : Forall (fun v => Visitors.isUnique v = Some true)
    [visitor_a;
     Visitors.Row 2 (Some "10.0.0.2"%string) None None None None
       None None None None (Some true) (Some 1) (now env1) (now env1)]).
  { repeat constructor. }
  assert (H3 : Forall (fun v => Visitors.isUnique v <> Some true) [returning_visitor]).
  { repeat constructor. simpl. discriminate. }
  split; [exact H1 |]. split; [exact H2 |]. split; [exact H3 |].
  exact (getVisitorStats_totals sort_desc store_mixed _ _ H1 H2 H3).
Defined.

(** ** Grouping *)

Lemma same_key_true_iff (a b : option string) : same_key a b = true <-> a = b.
Proof.
  destruct a as [x |], b as [y |]; simpl; try (split; congruence).
  rewrite String.eqb_eq. split; congruence.
Qed.

Lemma same_key_false_iff (a b : option string) : same_key a b = false <-> a <> b.
Proof.
  rewrite <- same_key_true_iff. destruct (same_key a b); split; congruence.
Qed.

(** Decides every test on keys in the goal, turning it into an equation
    or a disequation. *)
Ltac keys :=
  repeat match goal with
  | |- context [same_key ?a ?b] =>
      let E := fresh "E" in
      destruct (same_key a b) eqn:E;
      [apply same_key_true_iff in E; try subst | apply same_key_false_iff in E]
  end;
  try congruence; try lia.

Lemma count_of_bump (k k' : option string) (gs : list group) :
  count_of k (bump k' gs) = count_of k gs + (if same_key k k' then 1 else 0).
Proof.
  induction gs as [| [kk c] gs IH]; simpl.
  - keys.
  - destruct (same_key k' kk) eqn:E'.
    + apply same_key_true_iff in E'. subst kk. simpl. keys.
    + apply same_key_false_iff in E'. simpl. rewrite IH. keys.
Qed.

Lemma bump_keys (k x : option string) (gs : list group) :
  In x (map fst (bump k gs)) <-> x = k \/ In x (map fst gs).
Proof.
  induction gs as [| [kk c] gs IH]; simpl.
  - intuition.
  - destruct (same_key k kk) eqn:E; simpl.
    + apply same_key_true_iff in E. subst kk. intuition.
    + rewrite IH. intuition.
Qed.

Lemma bump_NoDup (k : option string) (gs : list group) :
  NoDup (map fst gs) -> NoDup (map fst (bump k gs)).
Proof.
  induction gs as [| [kk c] gs IH]; simpl; intros Hnd.
  - constructor; [intros [] | constructor].
  - inversion Hnd as [| ? ? Hkk Hgs]; subst.
    destruct (same_key k kk) eqn:E; simpl.
    + constructor; assumption.
    + apply same_key_false_iff in E. constructor; [| now apply IH].
      rewrite bump_keys. intros [-> | Hin]; [now apply E | now apply Hkk].
Qed.

Lemma count_of_In (k : option string) (c : Z) (gs : list group) :
  NoDup (map fst gs) -> In (k, c) gs -> count_of k gs = c.
Proof.
  induction gs as [| [kk c'] gs IH]; simpl; intros Hnd Hin; [contradiction |].
  inversion Hnd as [| ? ? Hkk Hgs]; subst.
  destruct Hin as [Heq | Hin].
  - injection Heq as -> ->. keys.
  - destruct (same_key k kk) eqn:E.
    + apply same_key_true_iff in E. subst kk. exfalso. apply Hkk.
      change k with (fst (k, c)). now apply in_map.
    + now apply IH.
Qed.

Section GroupBy.
Variable key : Visitor -> option string.

Local Abbreviation step :=
  (fun (groups : list group) (v : Visitor) => bump (key v) groups).

Lemma fold_count (k : option string) (rows : list Visitor) (acc : list group) :
  count_of k (fold_left step rows acc) = count_of k acc + rows_with key k rows.
Proof.
  revert acc. induction rows as [| v rows IH]; intros acc; simpl.
  - unfold rows_with. simpl. lia.
  - rewrite IH, count_of_bump.
    unfold rows_with. simpl.
    destruct (same_key (key v) k) eqn:E.
    + apply same_key_true_iff in E. subst k. simpl List.length. keys.
    + apply same_key_false_iff in E. keys.
Qed.

Lemma fold_NoDup (rows : list Visitor) (acc : list group) :
  NoDup (map fst acc) -> NoDup (map fst (fold_left step rows acc)).
Proof.
  revert acc. induction rows as [| v rows IH]; intros acc H; simpl.
  - exact H.
  - apply IH. now apply bump_NoDup.
Qed.

Lemma fold_keys (k : option string) (rows : list Visitor) (acc : list group) :
  In k (map fst (fold_left step rows acc)) ->
  In k (map fst acc) \/ exists v, In v rows /\ key v = k.
Proof.
  revert acc. induction rows as [| v rows IH]; intros acc H; simpl in *.
  - now left.
  - destruct (IH _ H) as [Hacc | [x [Hx Hk]]].
    + apply bump_keys in Hacc.
      destruct Hacc as [-> | Hacc]; [right; exists v; auto | now left].
    + right. exists x. auto.
Qed.

Lemma rows_with_positive (k : option string) (rows : list Visitor) (v : Visitor) :
  In v rows -> key v = k -> 1 <= rows_with key k rows.
Proof.
  intros Hin Hk. unfold rows_with.
  assert (Hf : In v (filter (fun x => same_key (key x) k) rows)).
  { apply filter_In. split; [exact Hin |]. now apply same_key_true_iff. }
  destruct (filter _ rows); [contradiction | simpl List.length; lia].
Qed.

(** The groups of [group_by]: distinct keys, each the key of some row, with
    the number of rows that hold it. *)
Lemma group_by_groups (rows : list Visitor) :
  NoDup (map fst (group_by key rows)) /\
  forall k c, In (k, c) (group_by key rows) ->
    c = rows_with key k rows /\ exists v, In v rows /\ key v = k.
Proof.
  assert (Hnd : NoDup (map fst (group_by key rows)))
    by (apply fold_NoDup; constructor).
  split; [exact Hnd |]. intros k c Hin.
  split.
  - rewrite <- (count_of_In k c _ Hnd Hin).
    change (group_by key rows) with (fold_left step rows []).
    now rewrite (fold_count k rows []).
  - assert (Hk : In k (map fst (group_by key rows)))
      by (change k with (fst (k, c)); now apply in_map).
    destruct (fold_keys k rows [] Hk) as [[] | H]. exact H.
Qed.

Lemma rows_with_not_null (s : string) (rows : list Visitor) :
  rows_with key (Some s) (filter (fun v => is_not_null (key v)) rows) =
  rows_with key (Some s) rows.
Proof.
  unfold rows_with. f_equal. f_equal.
  induction rows as [| v rows IH]; simpl; [reflexivity |].
  destruct (key v) as [x |] eqn:Hk; simpl; rewrite ?Hk; simpl.
  - destruct (String.eqb x s); simpl; congruence.
  - exact IH.
Qed.

End GroupBy.

(** ** Ordering and limit *)

Lemma count_ge_trans : Relations_1.Transitive count_ge.
Proof. intros a b c Hab Hbc. unfold count_ge in *. lia. Qed.

Lemma firstn_In {A} (n : nat) (l : list A) (x : A) :
  In x (firstn n l) -> In x l.
Proof.
  intros H. rewrite <- (firstn_skipn n l). apply in_or_app. now left.
Qed.

Lemma firstn_NoDup {A} (n : nat) (l : list A) : NoDup l -> NoDup (firstn n l).
Proof.
  intros H. rewrite <- (firstn_skipn n l) in H.
  now apply NoDup_app_remove_r in H.
Qed.

Lemma firstn_StronglySorted {A} (R : A -> A -> Prop) (n : nat) (l : list A) :
  StronglySorted R l -> StronglySorted R (firstn n l).
Proof.
  revert n. induction l as [| x l IH]; intros n H.
  - destruct n; constructor.
  - destruct n; simpl; [constructor |].
    inversion H as [| ? ? Hl Hx]; subst. constructor; [now apply IH |].
    rewrite Forall_forall in *. intros y Hy. apply Hx.
    now apply firstn_In in Hy.
Qed.

Lemma map_StronglySorted {A B} (R : A -> A -> Prop) (S : B -> B -> Prop)
    (f : A -> B) (l : list A) :
  (forall a b, R a b -> S (f a) (f b)) ->
  StronglySorted R l -> StronglySorted S (map f l).
Proof.
  intros Hf. induction 1 as [| x l _ IH Hx]; simpl; constructor; [exact IH |].
  apply Forall_map. eapply Forall_impl; [| exact Hx]. intros y. apply Hf.
Qed.

Lemma Forall2_map_r_In {A B} (R : A -> B -> Prop) (f : A -> B) (l : list A) :
  (forall x, In x l -> R x (f x)) -> Forall2 R l (map f l).
Proof.
  induction l as [| x l IH]; simpl; intros H; constructor.
  - apply H. now left.
  - apply IH. intros y Hy. apply H. now right.
Qed.

(** The insertion sort is one of the orderings the engine may produce. *)
Lemma insert_desc_permutes (g : group) (l : list group) :
  Permutation (insert_desc g l) (g :: l).
Proof.
  induction l as [| h t IH]; simpl.
  - reflexivity.
  - destruct (snd h <? snd g); [reflexivity |].
    rewrite IH. apply perm_swap.
Qed.

Lemma sort_desc_permutes (l : list group) : Permutation (sort_desc l) l.
Proof.
  induction l as [| g l IH]; simpl.
  - reflexivity.
  - rewrite insert_desc_permutes. now apply perm_skip.
Qed.

Lemma insert_desc_sorted (g : group) (l : list group) :
  StronglySorted count_ge l -> StronglySorted count_ge (insert_desc g l).
Proof.
  induction 1 as [| h t Ht IH Hh]; simpl.
  - repeat constructor.
  - destruct (snd h <? snd g) eqn:E.
    + apply Z.ltb_lt in E. constructor; [now constructor |].
      constructor; [unfold count_ge; lia |].
      eapply Forall_impl; [| exact Hh]. unfold count_ge. intros y Hy. lia.
    + apply Z.ltb_ge in E. constructor; [exact IH |].
      apply (Permutation_Forall (x := g :: t)).
      * symmetry. apply insert_desc_permutes.
      * constructor; [exact E | exact Hh].
Qed.

Lemma sort_desc_sorts (l : list group) : Sorted count_ge (sort_desc l).
Proof.
  apply StronglySorted_Sorted.
  induction l as [| g l IH]; simpl; [constructor |].
  now apply insert_desc_sorted.
Qed.

(** ** The breakdowns *)

Lemma label_count (g : group) : snd (label g) = snd g.
Proof. reflexivity. Qed.

Lemma label_key (k : string) (c : Z) :
  k <> EmptyString -> fst (label (Some k, c)) = k.
Proof.
  intros H. destruct k; [contradiction | reflexivity].
Qed.

Section Breakdowns.

Variable orderByCountDesc : list group -> list group.
Hypothesis orderBy_permutes : forall l, Permutation (orderByCountDesc l) l.
Hypothesis orderBy_sorts : forall l, Sorted count_ge (orderByCountDesc l).

Lemma breakdownRaw_ok (key : Visitor -> option string) (st : Store) :
  breakdown_ok key st (breakdownRaw orderByCountDesc key st)
               (map label (breakdownRaw orderByCountDesc key st)).
Proof.
  unfold breakdownRaw, limit.
  set (rows := filter (fun v => is_not_null (key v)) (visitors st)).
  set (gs := group_by key rows).
  destruct (group_by_groups key rows) as [Hnd Hgroups]. fold gs in Hnd, Hgroups.
  assert (Hin : forall g, In g (firstn 10 (orderByCountDesc gs)) -> In g gs).
  { intros g Hg. apply firstn_In in Hg.
    exact (Permutation_in g (orderBy_permutes gs) Hg). }
  assert (Hentry : forall g, In g (firstn 10 (orderByCountDesc gs)) ->
                             entry_of key st g (label g)).
  { intros [k c] Hg. apply Hin in Hg.
    destruct (Hgroups k c Hg) as [Hc [v [Hv Hk]]].
    apply filter_In in Hv. destruct Hv as [Hv Hnn].
    destruct k as [s |]; [| rewrite Hk in Hnn; discriminate].
    exists s. simpl. split; [reflexivity |].
    split; [now rewrite Hc; apply rows_with_not_null |].
    split; [| split; [reflexivity | apply (label_key s c)]].
    rewrite Hc. apply (rows_with_positive key (Some s) rows v); [| exact Hk].
    apply filter_In. auto. }
  split; [| split; [| split; [| split]]].
  - apply Forall_forall. intros g Hg. destruct (Hentry g Hg) as [k [Hk _]].
    rewrite Hk. discriminate.
  - rewrite length_map. apply firstn_le_length.
  - apply (map_StronglySorted count_ge).
    + intros a b Hab. exact Hab.
    + apply firstn_StronglySorted, Sorted_StronglySorted;
        [exact count_ge_trans | apply orderBy_sorts].
  - rewrite <- firstn_map. apply firstn_NoDup.
    apply (Permutation_NoDup (l := map fst gs)); [| exact Hnd].
    symmetry. apply Permutation_map, orderBy_permutes.
  - apply Forall2_map_r_In. exact Hentry.
Qed.

(** C3 (as the code has it).  Whatever ordering of equal counts the engine
    chooses, each of the four breakdowns of [getVisitorStats] has no group
    with a null key, has at most 10 entries and is in descending order of
    count; its entries are the groups of its query, each counting the rows
    of the table that hold one key.  The method itself maps every key
    through [key || "Unknown"]: a key that is not the empty string is
    returned unchanged. *)
Theorem getVisitorStats_breakdowns (st : Store) :
  let stats := getVisitorStats orderByCountDesc st in
  breakdown_ok Visitors.country st
    (breakdownRaw orderByCountDesc Visitors.country st) (visitorsByCountry stats) /\
  breakdown_ok Visitors.device st
    (breakdownRaw orderByCountDesc Visitors.device st) (visitorsByDevice stats) /\
  breakdown_ok Visitors.browser st
    (breakdownRaw orderByCountDesc Visitors.browser st) (visitorsByBrowser stats) /\
  breakdown_ok Visitors.os st
    (breakdownRaw orderByCountDesc Visitors.os st) (visitorsByOs stats).
Proof.
  cbv zeta. unfold getVisitorStats.
  cbn [visitorsByCountry visitorsByDevice visitorsByBrowser visitorsByOs].
  repeat split; apply breakdownRaw_ok.
Qed.

End Breakdowns.

(** The breakdowns of three visits, ordered by the insertion sort. *)
Lemma getVisitorStats_breakdowns_witness :
  (forall l, Permutation (sort_desc l) l) /\
  (forall l, Sorted count_ge (sort_desc l)) /\
  (let st := run three_visits emptyStore in
   let stats := getVisitorStats sort_desc st in
   breakdown_ok Visitors.country st
     (breakdownRaw sort_desc Visitors.country st) (visitorsByCountry stats) /\
   breakdown_ok Visitors.device st
     (breakdownRaw sort_desc Visitors.device st) (visitorsByDevice stats) /\
   breakdown_ok Visitors.browser st
     (breakdownRaw sort_desc Visitors.browser st) (visitorsByBrowser stats) /\
   breakdown_ok Visitors.os st
     (breakdownRaw sort_desc Visitors.os st) (visitorsByOs stats)).
Proof.
  split; [exact sort_desc_permutes |]. split; [exact sort_desc_sorts |].
  exact (getVisitorStats_breakdowns sort_desc sort_desc_permutes sort_desc_sorts
           (run three_visits emptyStore)).
Defined.

(** C3 as the specification words it fails: the breakdown returned is not
    made of the raw group keys.  A visitor whose country is the empty string
    is returned under the key "Unknown", a key no row of the table holds. *)
Lemma getVisitorStats_relabels_empty_key :
  reachable store_blank /\
  breakdownRaw sort_desc Visitors.country store_blank = [(Some EmptyString, 1)] /\
  visitorsByCountry (getVisitorStats sort_desc store_blank) = [("Unknown"%string, 1)] /\
  (forall v, In v (visitors store_blank) ->
             Visitors.country v <> Some "Unknown"%string).
Proof.
  split; [exists [CreateVisitor env0 visit_blank]; reflexivity |].
  split; [reflexivity |]. split; [reflexivity |].
  intros v [<- | []]. discriminate.
Qed.

(* ================================================================== *)
(** * The format of hashes and salts                                   *)
(* ================================================================== *)

Module CryptoFormat.
Import Crypto.

Lemma land_255_range (x : Z) : byte_range (Z.land x 0xff).
Proof.
  unfold byte_range. change 0xff with (Z.ones 8).
  rewrite Z.land_ones by lia. apply Z.mod_pos_bound. reflexivity.
Qed.

Lemma range_land_255 (x : Z) : byte_range x -> Z.land x 0xff = x.
Proof.
  unfold byte_range. intros H. change 0xff with (Z.ones 8).
  rewrite Z.land_ones by lia. apply Z.mod_small. exact H.
Qed.

Lemma lxor_range (a b : Z) : byte_range a -> byte_range b -> byte_range (Z.lxor a b).
Proof.
  intros Ha Hb.
  assert (E : Z.lxor a b = Z.land (Z.lxor a b) 0xff).
  { rewrite <- (range_land_255 a Ha) at 1. rewrite <- (range_land_255 b Hb) at 1.
    apply Z.bits_inj'. intros n _.
    rewrite !Z.land_spec, !Z.lxor_spec, !Z.land_spec.
    destruct (Z.testbit a n), (Z.testbit b n), (Z.testbit 0xff n); reflexivity. }
  rewrite E. apply land_255_range.
Qed.

Lemma length_be_bytes (n : nat) (x : Z) : List.length (be_bytes n x) = n.
Proof. induction n as [| n IH]; simpl; congruence. Qed.

Lemma range_be_bytes (n : nat) (x : Z) : Forall byte_range (be_bytes n x).
Proof.
  induction n as [| n IH]; simpl; constructor; [apply land_255_range | exact IH].
Qed.

Lemma length_compress (h : list Z) (block : buffer) :
  List.length h = 8%nat -> List.length (compress h block) = 8%nat.
Proof.
  intros Hh. unfold compress. rewrite length_map, length_combine, Hh.
  reflexivity.
Qed.

Lemma length_fold_compress (blocks : list buffer) (h : list Z) :
  List.length h = 8%nat -> List.length (fold_left compress blocks h) = 8%nat.
Proof.
  revert h. induction blocks as [| b blocks IH]; intros h Hh; simpl.
  - exact Hh.
  - apply IH. now apply length_compress.
Qed.

Lemma length_flat_be_bytes (ws : list Z) :
  List.length (flat_map (be_bytes 8) ws) = (8 * List.length ws)%nat.
Proof.
  induction ws as [| w ws IH]; [reflexivity |].
  change (flat_map (be_bytes 8) (w :: ws))
    with (be_bytes 8 w ++ flat_map (be_bytes 8) ws).
  rewrite length_app, length_be_bytes, IH. simpl List.length. lia.
Qed.

Lemma range_flat_be_bytes (ws : list Z) :
  Forall byte_range (flat_map (be_bytes 8) ws).
Proof.
  induction ws as [| w ws IH]; [constructor |].
  change (flat_map (be_bytes 8) (w :: ws))
    with (be_bytes 8 w ++ flat_map (be_bytes 8) ws).
  apply Forall_app. split; [apply range_be_bytes | exact IH].
Qed.

(** A digest is 64 bytes. *)
Lemma sha512_digest (msg : buffer) :
  List.length (sha512 msg) = 64%nat /\ Forall byte_range (sha512 msg).
Proof.
  unfold sha512. split.
  - rewrite length_flat_be_bytes, length_fold_compress; reflexivity.
  - apply range_flat_be_bytes.
Qed.

Lemma xor_bytes_digest (a b : buffer) : digest a -> digest b -> digest (xor_bytes a b).
Proof.
  intros [La Ra] [Lb Rb]. unfold xor_bytes. split.
  - rewrite length_map, length_combine, La, Lb. reflexivity.
  - apply Forall_map. apply Forall_forall. intros [x y] Hin. simpl.
    apply lxor_range.
    + rewrite Forall_forall in Ra. apply Ra. eapply in_combine_l, Hin.
    + rewrite Forall_forall in Rb. apply Rb. eapply in_combine_r, Hin.
Qed.

Lemma iterate_digest (prf : buffer -> buffer) (c : nat) (u acc : buffer) :
  (forall m, digest (prf m)) -> digest acc -> digest (iterate prf c u acc).
Proof.
  intros Hprf. revert u acc. induction c as [| c IH]; intros u acc Hacc; simpl.
  - exact Hacc.
  - apply IH. apply xor_bytes_digest; [exact Hacc | apply Hprf].
Qed.

(** The key of 64 bytes the store derives. *)
Lemma pbkdf2Sync_digest (password salt : string) (c : nat) :
  digest (pbkdf2Sync password salt c 64).
Proof.
  unfold pbkdf2Sync, pbkdf2.
  change ((64 + 64 - 1) / 64)%nat with 1%nat.
  change (seq 1 1) with [1%nat].
  set (prf := hmac_sha512 (bytes_of_string password)).
  assert (Hprf : forall m, digest (prf m)) by (intros m; apply sha512_digest).
  assert (Hblock : digest (pbkdf2_block prf (bytes_of_string salt) c (Z.of_nat 1))).
  { unfold pbkdf2_block. apply iterate_digest; [exact Hprf | apply Hprf]. }
  change (flat_map (fun i => pbkdf2_block prf (bytes_of_string salt) c (Z.of_nat i)) [1%nat])
    with (pbkdf2_block prf (bytes_of_string salt) c (Z.of_nat 1) ++ []).
  rewrite app_nil_r. destruct Hblock as [L R].
  rewrite <- L at 1. rewrite firstn_all. split; assumption.
Qed.

Lemma length_toHex (bs : buffer) :
  String.length (toHex bs) = (2 * List.length bs)%nat.
Proof.
  induction bs as [| b bs IH]; simpl; [reflexivity |]. rewrite IH. lia.
Qed.

Lemma is_hex_digit (d : Z) : 0 <= d < 16 -> is_hex (hex_digit d) = true.
Proof.
  intros H.
  assert (Hd : d = 0 \/ d = 1 \/ d = 2 \/ d = 3 \/ d = 4 \/ d = 5 \/ d = 6 \/ d = 7 \/
               d = 8 \/ d = 9 \/ d = 10 \/ d = 11 \/ d = 12 \/ d = 13 \/ d = 14 \/ d = 15)
    by lia.
  repeat (destruct Hd as [-> | Hd]; [reflexivity |]). subst d. reflexivity.
Qed.

Lemma all_hex_toHex (bs : buffer) :
  Forall byte_range bs -> all_hex (toHex bs) = true.
Proof.
  unfold all_hex. induction 1 as [| b bs Hb _ IH]; [reflexivity |].
  cbn [toHex list_ascii_of_string forallb]. rewrite IH.
  unfold byte_range in Hb.
  rewrite !is_hex_digit; [reflexivity | |].
  - change 15 with (Z.ones 4). rewrite Z.land_ones by lia.
    apply Z.mod_pos_bound. reflexivity.
  - rewrite Z.shiftr_div_pow2 by lia. change (2 ^ 4) with 16.
    split; [apply Z.div_pos; lia | apply Z.div_lt_upper_bound; lia].
Qed.

Lemma randomBytes_range (src : entropy) (n : nat) :
  List.length (randomBytes src n) = n /\ Forall byte_range (randomBytes src n).
Proof.
  unfold randomBytes. split.
  - now rewrite length_map, length_seq.
  - apply Forall_map. apply Forall_forall. intros i _. apply land_255_range.
Qed.

End CryptoFormat.

(** The two theorems below open the hash and the salt. *)
Transparent hashPassword generateSalt.

(** X1.  Whatever the password and the salt, the hash is a string of 128
    lower-case hexadecimal digits: the 64 bytes of the derived key. *)
Theorem hashPassword_format (password salt : string) :
  String.length (hashPassword password salt) = 128%nat /\
  all_hex (hashPassword password salt) = true.
Proof.
  unfold hashPassword.
  destruct (CryptoFormat.pbkdf2Sync_digest password salt 1000) as [L R].
  split.
  - rewrite CryptoFormat.length_toHex, L. reflexivity.
  - now apply CryptoFormat.all_hex_toHex.
Qed.

(** X2.  Whatever the random source returns, the salt is a string of 32
    lower-case hexadecimal digits: 16 bytes. *)
Theorem generateSalt_format (src : Crypto.entropy) :
  String.length (generateSalt src) = 32%nat /\
  all_hex (generateSalt src) = true.
Proof.
  unfold generateSalt.
  destruct (CryptoFormat.randomBytes_range src 16) as [L R].
  split.
  - rewrite CryptoFormat.length_toHex, L. reflexivity.
  - now apply CryptoFormat.all_hex_toHex.
Qed.

Opaque hashPassword generateSalt.

Lemma append_nul (a b : string) :
  (a ++ String Ascii.zero b)%string = ((a ++ String Ascii.zero EmptyString) ++ b)%string.
Proof.
  induction a as [| c a IH]; simpl; [reflexivity | now rewrite IH].
Qed.

Lemma length_append (a b : string) :
  String.length (a ++ b) = (String.length a + String.length b)%nat.
Proof.
  induction a as [| c a IH]; simpl; [reflexivity | now rewrite IH].
Qed.

(** X3.  A password and the same password followed by NUL characters, the
    whole no longer than the 128 bytes of an HMAC block, have the same hash
    under every salt. *)
Theorem hashPassword_trailing_nuls (password salt : string) (n : nat) :
  (String.length password + n <= 128)%nat ->
  hashPassword (password ++ nuls n) salt = hashPassword password salt.
Proof.
  revert password. induction n as [| n IH]; intros password Hlen.
  - simpl. replace (password ++ EmptyString)%string with password; [reflexivity |].
    clear. induction password as [| c p IHp]; simpl; congruence.
  - simpl nuls. rewrite append_nul, IH.
    + apply hashPassword_trailing_nul. lia.
    + rewrite length_append. simpl. lia.
Qed.

Lemma hashPassword_trailing_nuls_witness :
  (String.length "secret1" + 3 <= 128)%nat /\
  hashPassword ("secret1" ++ nuls 3) "00ff" = hashPassword "secret1" "00ff".
Proof.
  assert (H : (String.length "secret1" + 3 <= 128)%nat) by (simpl; lia).
  split; [exact H |].
  exact (hashPassword_trailing_nuls "secret1" "00ff" 3 H).
Defined.

